(** * chronproc: a digital clock with alarm, melodies and light effects

    A shallow embedding of [src/main.c] (firmware for a Kinetis K60 board)
    and the properties of its alarm repeat engine, its tone and light
    sequencers and its serial command reader.

    The C globals and the memory-mapped registers the program touches form
    one [state] record; every C function becomes a function on that record.
    Functions that wait for a byte on the UART return [option]: [None] is
    the program spinning on an empty receiver. Everything a function does
    to the outside world (speaker line, busy-wait delays, LED port writes,
    text sent on the UART) is appended to the [trace] of the state. *)

From Stdlib Require Import ZArith List Bool Ascii String Lia.
From Equations Require Import Equations.
Import ListNotations.
Local Open Scope Z_scope.

(** ** Machine integers

    [int] is 32 bits wide on the Cortex-M4; [uint32_t] registers wrap
    modulo [2^32]. *)

Definition uint32 (z : Z) : Z := z mod 2 ^ 32.

Definition int32 (z : Z) : Z := (z + 2 ^ 31) mod 2 ^ 32 - 2 ^ 31.

Arguments uint32 : simpl never.
Arguments int32 : simpl never.

(** ** Characters and C strings *)

Definition NUL : ascii := "000"%char.
Definition BS  : ascii := "008"%char.   (* '\b'   *)
Definition LF  : ascii := "010"%char.   (* '\n'   *)
Definition CR  : ascii := "013"%char.   (* '\r'   *)
Definition DEL : ascii := "127"%char.   (* '\177' *)

Definition code (c : ascii) : Z := Z.of_N (N_of_ascii c).

Definition isspace (c : ascii) : bool :=
  (code c =? 32) || ((9 <=? code c) && (code c <=? 13)).

Definition isdigit (c : ascii) : bool :=
  (48 <=? code c) && (code c <=? 57).

(** The bytes of a [char] array up to, not including, its first NUL. *)
Fixpoint cstr (buf : list ascii) : list ascii :=
  match buf with
  | [] => []
  | c :: rest => if Ascii.eqb c NUL then [] else c :: cstr rest
  end.

(** [buf[i] = c] on an array; the callers keep [i] inside the array. *)
Fixpoint store (buf : list ascii) (i : nat) (c : ascii) : list ascii :=
  match buf, i with
  | [], _ => []
  | _ :: rest, O => c :: rest
  | b :: rest, S j => b :: store rest j c
  end.

Fixpoint skip_space (s : list ascii) : list ascii :=
  match s with
  | c :: rest => if isspace c then skip_space rest else s
  | [] => []
  end.

Fixpoint scan_digits (acc : Z) (s : list ascii) : Z * list ascii :=
  match s with
  | c :: rest =>
      if isdigit c then scan_digits (10 * acc + (code c - 48)) rest
      else (acc, s)
  | [] => (acc, [])
  end.

Definition scan_sign (s : list ascii) : bool * list ascii :=
  match s with
  | c :: rest =>
      if Ascii.eqb c "-" then (true, rest)
      else if Ascii.eqb c "+" then (false, rest)
      else (false, s)
  | [] => (false, [])
  end.

(** The number at the start of [s] as [atoi] and [%d] read it: optional
    white space, an optional sign, then the digits there are (none gives
    0). This is the value before it is stored in an [int]. *)
Definition decimal_value (s : list ascii) : Z :=
  let '(neg, digits) := scan_sign (skip_space s) in
  let '(v, _) := scan_digits 0 digits in
  if neg then - v else v.

(** The number at the start of [s] is one an [int] can hold. *)
Definition fits_int (s : list ascii) : Prop :=
  - 2 ^ 31 <= decimal_value s < 2 ^ 31.

(** [atoi]: the number at the start of [s], as an [int]. A number that
    fits is returned as it is; of one that does not, the low 32 bits are
    kept (the C standard leaves that case open, and what is proved about
    the value of an entry assumes [fits_int]). *)
Definition atoi (s : list ascii) : Z := int32 (decimal_value s).

(** The [%d] conversion of [sscanf]: as [atoi], but at least one digit is
    required; [None] is a matching failure. The value is stored through
    an [int *], so it is an [int] as for [atoi]. *)
Definition scan_int (s : list ascii) : option (Z * list ascii) :=
  let '(neg, digits) := scan_sign (skip_space s) in
  match digits with
  | c :: _ =>
      if isdigit c then
        let '(v, rest) := scan_digits 0 digits in
        Some (int32 (if neg then - v else v), rest)
      else None
  | [] => None
  end.

Inductive directive : Type :=
| DInt                  (* %d *)
| DLit (c : ascii)      (* an ordinary character of the format *)
| DSpace.               (* white space in the format *)

(** [sscanf] restricted to the directives above: the values assigned, in
    order, up to the first failure. *)
Fixpoint sscanf (fmt : list directive) (s : list ascii) : list Z :=
  match fmt with
  | [] => []
  | DInt :: fmt' =>
      match scan_int s with
      | Some (v, rest) => v :: sscanf fmt' rest
      | None => []
      end
  | DLit c :: fmt' =>
      match s with
      | c' :: rest => if Ascii.eqb c c' then sscanf fmt' rest else []
      | [] => []
      end
  | DSpace :: fmt' => sscanf fmt' (skip_space s)
  end.

(** "%d-%d-%d %d:%d:%d" *)
Definition datetime_format : list directive :=
  [DInt; DLit "-"; DInt; DLit "-"; DInt; DSpace;
   DInt; DLit ":"; DInt; DLit ":"; DInt].

(** ** Program state *)

(** [enum InterfaceState] *)
Inductive InterfaceState : Type :=
| IDLE
| READING_INPUT
| PROCESSING_INPUT.

(** [struct tm], the fields the program writes. [tm_isdst] is [None]
    where the program leaves it uninitialised. *)
Record tm : Type := mkTm {
  tm_sec : Z;
  tm_min : Z;
  tm_hour : Z;
  tm_mday : Z;
  tm_mon : Z;
  tm_year : Z;
  tm_isdst : option Z
}.

(** The texts the firmware sends on the UART, one constructor per string
    literal (the colour escape codes and the Czech wording are left out;
    formatted values are kept as arguments). *)
Inductive message : Type :=
| MsgAttempt (attempt next : Z)  (* "Pokus o buzeni %d, Dalsi Alarm: %s" *)
| MsgMelodyPrompt               (* "Vyberte melodii (1-3): " *)
| MsgMelodyChosen
| MsgLightPrompt                (* "Vyberte svetelny efekt (1-3): " *)
| MsgLightChosen
| MsgChoiceOutOfRange           (* "Neplatna volba, zadejte cislo mezi 1 a 3." *)
| MsgAlarmOn                    (* "Alarm byl zapnut." *)
| MsgAlarmOff                   (* "Alarm byl vypnut." *)
| MsgToggleInvalid              (* "Neplatna volba, zadejte 1 ... nebo 0 ..." *)
| MsgTogglePrompt               (* "1 - zapnout", "0 - vypnout" *)
| MsgToggleFormat               (* "Chybny format vstupu pro zapnuti/vypnuti alarmu." *)
| MsgStatus (enabled : bool) (alarm now melody light count interval : Z)
| MsgRepeatCountPrompt          (* "Zadejte pocet opakovani budiku (0 pro zadne opakovani): " *)
| MsgRepeatIntervalPrompt       (* "Zadejte interval mezi opakovanimi v sekundach: " *)
| MsgRepeatUpdated              (* "Nastaveni opakovani budiku bylo aktualizovano." *)
| MsgIntervalInvalid            (* "Neplatny interval, musi byt vetsi nez 0." *)
| MsgRepeatCountInvalid         (* "Neplatny pocet opakovani, musi byt nezaporne cislo." *)
| MsgTimePrompt                 (* "Zadejte datum a cas (YYYY-MM-DD HH:MM:SS): " *)
| MsgTimeOutOfRange             (* "Neplatny vstup, zadejte datum a cas v spravnem formatu." *)
| MsgTimeFormat                 (* "Chybny format vstupu, zkuste to znovu." *)
| MsgClockSet                   (* "Cas byl nastaven." *)
| MsgClockNotSet                (* "Cas nebyl nastaven." *)
| MsgAlarmSet                   (* "Alarm byl nastaven." *)
| MsgAlarmNotSet                (* "Alarm nebyl nastaven." *)
| MsgMenu                       (* the nine lines of [displayMenu] *)
| MsgInitDone.                  (* "Inicializace byla dokoncena." *)

(** What the program does to its surroundings. *)
Inductive event : Type :=
| EvSpeaker (on : bool)   (* PTA->PSOR = SPK / PTA->PCOR = SPK *)
| EvDelay (bound : Z)     (* the busy loop of [Delay] *)
| EvLeds (pdor : Z)       (* a write to PTB->PDOR *)
| EvSend (m : message).   (* [UARTSendStr] *)

Record state : Type := mkState {
  (* globals of main.c *)
  interfaceState : InterfaceState;
  inputBuffer : list ascii;            (* char inputBuffer[100] *)
  inputIndex : Z;
  selectedMelodyID : Z;
  selectedLightEffectID : Z;
  alarmEnabled : bool;
  alarmRepeatCount : Z;
  alarmIntervalSeconds : Z;
  globalAlarmTime : Z;
  isPlayingMelody : bool;
  isShowingLights : bool;
  melodyIndex : Z;
  lightIndex : Z;
  (* static local of handleAlarmRepeats *)
  currentRepeatCount : Z;
  (* registers *)
  RTC_TSR : Z;
  RTC_TAR : Z;
  RTC_SR : Z;
  PTB_PDOR : Z;
  (* surroundings: bytes waiting at the UART receiver, actions so far *)
  uart_rx : list ascii;
  trace : list event
}.

Definition set_interfaceState (v : InterfaceState) (st : state) : state :=
  {| interfaceState := v; inputBuffer := inputBuffer st;
     inputIndex := inputIndex st; selectedMelodyID := selectedMelodyID st;
     selectedLightEffectID := selectedLightEffectID st;
     alarmEnabled := alarmEnabled st;
     alarmRepeatCount := alarmRepeatCount st;
     alarmIntervalSeconds := alarmIntervalSeconds st;
     globalAlarmTime := globalAlarmTime st;
     isPlayingMelody := isPlayingMelody st;
     isShowingLights := isShowingLights st; melodyIndex := melodyIndex st;
     lightIndex := lightIndex st;
     currentRepeatCount := currentRepeatCount st; RTC_TSR := RTC_TSR st;
     RTC_TAR := RTC_TAR st; RTC_SR := RTC_SR st; PTB_PDOR := PTB_PDOR st;
     uart_rx := uart_rx st; trace := trace st |}.

Definition set_inputBuffer (v : list ascii) (st : state) : state :=
  {| interfaceState := interfaceState st; inputBuffer := v;
     inputIndex := inputIndex st; selectedMelodyID := selectedMelodyID st;
     selectedLightEffectID := selectedLightEffectID st;
     alarmEnabled := alarmEnabled st;
     alarmRepeatCount := alarmRepeatCount st;
     alarmIntervalSeconds := alarmIntervalSeconds st;
     globalAlarmTime := globalAlarmTime st;
     isPlayingMelody := isPlayingMelody st;
     isShowingLights := isShowingLights st; melodyIndex := melodyIndex st;
     lightIndex := lightIndex st;
     currentRepeatCount := currentRepeatCount st; RTC_TSR := RTC_TSR st;
     RTC_TAR := RTC_TAR st; RTC_SR := RTC_SR st; PTB_PDOR := PTB_PDOR st;
     uart_rx := uart_rx st; trace := trace st |}.

Definition set_inputIndex (v : Z) (st : state) : state :=
  {| interfaceState := interfaceState st; inputBuffer := inputBuffer st;
     inputIndex := v; selectedMelodyID := selectedMelodyID st;
     selectedLightEffectID := selectedLightEffectID st;
     alarmEnabled := alarmEnabled st;
     alarmRepeatCount := alarmRepeatCount st;
     alarmIntervalSeconds := alarmIntervalSeconds st;
     globalAlarmTime := globalAlarmTime st;
     isPlayingMelody := isPlayingMelody st;
     isShowingLights := isShowingLights st; melodyIndex := melodyIndex st;
     lightIndex := lightIndex st;
     currentRepeatCount := currentRepeatCount st; RTC_TSR := RTC_TSR st;
     RTC_TAR := RTC_TAR st; RTC_SR := RTC_SR st; PTB_PDOR := PTB_PDOR st;
     uart_rx := uart_rx st; trace := trace st |}.

Definition set_selectedMelodyID (v : Z) (st : state) : state :=
  {| interfaceState := interfaceState st; inputBuffer := inputBuffer st;
     inputIndex := inputIndex st; selectedMelodyID := v;
     selectedLightEffectID := selectedLightEffectID st;
     alarmEnabled := alarmEnabled st;
     alarmRepeatCount := alarmRepeatCount st;
     alarmIntervalSeconds := alarmIntervalSeconds st;
     globalAlarmTime := globalAlarmTime st;
     isPlayingMelody := isPlayingMelody st;
     isShowingLights := isShowingLights st; melodyIndex := melodyIndex st;
     lightIndex := lightIndex st;
     currentRepeatCount := currentRepeatCount st; RTC_TSR := RTC_TSR st;
     RTC_TAR := RTC_TAR st; RTC_SR := RTC_SR st; PTB_PDOR := PTB_PDOR st;
     uart_rx := uart_rx st; trace := trace st |}.

Definition set_selectedLightEffectID (v : Z) (st : state) : state :=
  {| interfaceState := interfaceState st; inputBuffer := inputBuffer st;
     inputIndex := inputIndex st; selectedMelodyID := selectedMelodyID st;
     selectedLightEffectID := v; alarmEnabled := alarmEnabled st;
     alarmRepeatCount := alarmRepeatCount st;
     alarmIntervalSeconds := alarmIntervalSeconds st;
     globalAlarmTime := globalAlarmTime st;
     isPlayingMelody := isPlayingMelody st;
     isShowingLights := isShowingLights st; melodyIndex := melodyIndex st;
     lightIndex := lightIndex st;
     currentRepeatCount := currentRepeatCount st; RTC_TSR := RTC_TSR st;
     RTC_TAR := RTC_TAR st; RTC_SR := RTC_SR st; PTB_PDOR := PTB_PDOR st;
     uart_rx := uart_rx st; trace := trace st |}.

Definition set_alarmEnabled (v : bool) (st : state) : state :=
  {| interfaceState := interfaceState st; inputBuffer := inputBuffer st;
     inputIndex := inputIndex st; selectedMelodyID := selectedMelodyID st;
     selectedLightEffectID := selectedLightEffectID st; alarmEnabled := v;
     alarmRepeatCount := alarmRepeatCount st;
     alarmIntervalSeconds := alarmIntervalSeconds st;
     globalAlarmTime := globalAlarmTime st;
     isPlayingMelody := isPlayingMelody st;
     isShowingLights := isShowingLights st; melodyIndex := melodyIndex st;
     lightIndex := lightIndex st;
     currentRepeatCount := currentRepeatCount st; RTC_TSR := RTC_TSR st;
     RTC_TAR := RTC_TAR st; RTC_SR := RTC_SR st; PTB_PDOR := PTB_PDOR st;
     uart_rx := uart_rx st; trace := trace st |}.

Definition set_alarmRepeatCount (v : Z) (st : state) : state :=
  {| interfaceState := interfaceState st; inputBuffer := inputBuffer st;
     inputIndex := inputIndex st; selectedMelodyID := selectedMelodyID st;
     selectedLightEffectID := selectedLightEffectID st;
     alarmEnabled := alarmEnabled st; alarmRepeatCount := v;
     alarmIntervalSeconds := alarmIntervalSeconds st;
     globalAlarmTime := globalAlarmTime st;
     isPlayingMelody := isPlayingMelody st;
     isShowingLights := isShowingLights st; melodyIndex := melodyIndex st;
     lightIndex := lightIndex st;
     currentRepeatCount := currentRepeatCount st; RTC_TSR := RTC_TSR st;
     RTC_TAR := RTC_TAR st; RTC_SR := RTC_SR st; PTB_PDOR := PTB_PDOR st;
     uart_rx := uart_rx st; trace := trace st |}.

Definition set_alarmIntervalSeconds (v : Z) (st : state) : state :=
  {| interfaceState := interfaceState st; inputBuffer := inputBuffer st;
     inputIndex := inputIndex st; selectedMelodyID := selectedMelodyID st;
     selectedLightEffectID := selectedLightEffectID st;
     alarmEnabled := alarmEnabled st;
     alarmRepeatCount := alarmRepeatCount st; alarmIntervalSeconds := v;
     globalAlarmTime := globalAlarmTime st;
     isPlayingMelody := isPlayingMelody st;
     isShowingLights := isShowingLights st; melodyIndex := melodyIndex st;
     lightIndex := lightIndex st;
     currentRepeatCount := currentRepeatCount st; RTC_TSR := RTC_TSR st;
     RTC_TAR := RTC_TAR st; RTC_SR := RTC_SR st; PTB_PDOR := PTB_PDOR st;
     uart_rx := uart_rx st; trace := trace st |}.

Definition set_globalAlarmTime (v : Z) (st : state) : state :=
  {| interfaceState := interfaceState st; inputBuffer := inputBuffer st;
     inputIndex := inputIndex st; selectedMelodyID := selectedMelodyID st;
     selectedLightEffectID := selectedLightEffectID st;
     alarmEnabled := alarmEnabled st;
     alarmRepeatCount := alarmRepeatCount st;
     alarmIntervalSeconds := alarmIntervalSeconds st; globalAlarmTime := v;
     isPlayingMelody := isPlayingMelody st;
     isShowingLights := isShowingLights st; melodyIndex := melodyIndex st;
     lightIndex := lightIndex st;
     currentRepeatCount := currentRepeatCount st; RTC_TSR := RTC_TSR st;
     RTC_TAR := RTC_TAR st; RTC_SR := RTC_SR st; PTB_PDOR := PTB_PDOR st;
     uart_rx := uart_rx st; trace := trace st |}.

Definition set_isPlayingMelody (v : bool) (st : state) : state :=
  {| interfaceState := interfaceState st; inputBuffer := inputBuffer st;
     inputIndex := inputIndex st; selectedMelodyID := selectedMelodyID st;
     selectedLightEffectID := selectedLightEffectID st;
     alarmEnabled := alarmEnabled st;
     alarmRepeatCount := alarmRepeatCount st;
     alarmIntervalSeconds := alarmIntervalSeconds st;
     globalAlarmTime := globalAlarmTime st; isPlayingMelody := v;
     isShowingLights := isShowingLights st; melodyIndex := melodyIndex st;
     lightIndex := lightIndex st;
     currentRepeatCount := currentRepeatCount st; RTC_TSR := RTC_TSR st;
     RTC_TAR := RTC_TAR st; RTC_SR := RTC_SR st; PTB_PDOR := PTB_PDOR st;
     uart_rx := uart_rx st; trace := trace st |}.

Definition set_isShowingLights (v : bool) (st : state) : state :=
  {| interfaceState := interfaceState st; inputBuffer := inputBuffer st;
     inputIndex := inputIndex st; selectedMelodyID := selectedMelodyID st;
     selectedLightEffectID := selectedLightEffectID st;
     alarmEnabled := alarmEnabled st;
     alarmRepeatCount := alarmRepeatCount st;
     alarmIntervalSeconds := alarmIntervalSeconds st;
     globalAlarmTime := globalAlarmTime st;
     isPlayingMelody := isPlayingMelody st; isShowingLights := v;
     melodyIndex := melodyIndex st; lightIndex := lightIndex st;
     currentRepeatCount := currentRepeatCount st; RTC_TSR := RTC_TSR st;
     RTC_TAR := RTC_TAR st; RTC_SR := RTC_SR st; PTB_PDOR := PTB_PDOR st;
     uart_rx := uart_rx st; trace := trace st |}.

Definition set_melodyIndex (v : Z) (st : state) : state :=
  {| interfaceState := interfaceState st; inputBuffer := inputBuffer st;
     inputIndex := inputIndex st; selectedMelodyID := selectedMelodyID st;
     selectedLightEffectID := selectedLightEffectID st;
     alarmEnabled := alarmEnabled st;
     alarmRepeatCount := alarmRepeatCount st;
     alarmIntervalSeconds := alarmIntervalSeconds st;
     globalAlarmTime := globalAlarmTime st;
     isPlayingMelody := isPlayingMelody st;
     isShowingLights := isShowingLights st; melodyIndex := v;
     lightIndex := lightIndex st;
     currentRepeatCount := currentRepeatCount st; RTC_TSR := RTC_TSR st;
     RTC_TAR := RTC_TAR st; RTC_SR := RTC_SR st; PTB_PDOR := PTB_PDOR st;
     uart_rx := uart_rx st; trace := trace st |}.

Definition set_lightIndex (v : Z) (st : state) : state :=
  {| interfaceState := interfaceState st; inputBuffer := inputBuffer st;
     inputIndex := inputIndex st; selectedMelodyID := selectedMelodyID st;
     selectedLightEffectID := selectedLightEffectID st;
     alarmEnabled := alarmEnabled st;
     alarmRepeatCount := alarmRepeatCount st;
     alarmIntervalSeconds := alarmIntervalSeconds st;
     globalAlarmTime := globalAlarmTime st;
     isPlayingMelody := isPlayingMelody st;
     isShowingLights := isShowingLights st; melodyIndex := melodyIndex st;
     lightIndex := v; currentRepeatCount := currentRepeatCount st;
     RTC_TSR := RTC_TSR st; RTC_TAR := RTC_TAR st; RTC_SR := RTC_SR st;
     PTB_PDOR := PTB_PDOR st; uart_rx := uart_rx st; trace := trace st |}.

Definition set_currentRepeatCount (v : Z) (st : state) : state :=
  {| interfaceState := interfaceState st; inputBuffer := inputBuffer st;
     inputIndex := inputIndex st; selectedMelodyID := selectedMelodyID st;
     selectedLightEffectID := selectedLightEffectID st;
     alarmEnabled := alarmEnabled st;
     alarmRepeatCount := alarmRepeatCount st;
     alarmIntervalSeconds := alarmIntervalSeconds st;
     globalAlarmTime := globalAlarmTime st;
     isPlayingMelody := isPlayingMelody st;
     isShowingLights := isShowingLights st; melodyIndex := melodyIndex st;
     lightIndex := lightIndex st; currentRepeatCount := v;
     RTC_TSR := RTC_TSR st; RTC_TAR := RTC_TAR st; RTC_SR := RTC_SR st;
     PTB_PDOR := PTB_PDOR st; uart_rx := uart_rx st; trace := trace st |}.

Definition set_RTC_TSR (v : Z) (st : state) : state :=
  {| interfaceState := interfaceState st; inputBuffer := inputBuffer st;
     inputIndex := inputIndex st; selectedMelodyID := selectedMelodyID st;
     selectedLightEffectID := selectedLightEffectID st;
     alarmEnabled := alarmEnabled st;
     alarmRepeatCount := alarmRepeatCount st;
     alarmIntervalSeconds := alarmIntervalSeconds st;
     globalAlarmTime := globalAlarmTime st;
     isPlayingMelody := isPlayingMelody st;
     isShowingLights := isShowingLights st; melodyIndex := melodyIndex st;
     lightIndex := lightIndex st;
     currentRepeatCount := currentRepeatCount st; RTC_TSR := v;
     RTC_TAR := RTC_TAR st; RTC_SR := RTC_SR st; PTB_PDOR := PTB_PDOR st;
     uart_rx := uart_rx st; trace := trace st |}.

Definition set_RTC_TAR (v : Z) (st : state) : state :=
  {| interfaceState := interfaceState st; inputBuffer := inputBuffer st;
     inputIndex := inputIndex st; selectedMelodyID := selectedMelodyID st;
     selectedLightEffectID := selectedLightEffectID st;
     alarmEnabled := alarmEnabled st;
     alarmRepeatCount := alarmRepeatCount st;
     alarmIntervalSeconds := alarmIntervalSeconds st;
     globalAlarmTime := globalAlarmTime st;
     isPlayingMelody := isPlayingMelody st;
     isShowingLights := isShowingLights st; melodyIndex := melodyIndex st;
     lightIndex := lightIndex st;
     currentRepeatCount := currentRepeatCount st; RTC_TSR := RTC_TSR st;
     RTC_TAR := v; RTC_SR := RTC_SR st; PTB_PDOR := PTB_PDOR st;
     uart_rx := uart_rx st; trace := trace st |}.

Definition set_RTC_SR (v : Z) (st : state) : state :=
  {| interfaceState := interfaceState st; inputBuffer := inputBuffer st;
     inputIndex := inputIndex st; selectedMelodyID := selectedMelodyID st;
     selectedLightEffectID := selectedLightEffectID st;
     alarmEnabled := alarmEnabled st;
     alarmRepeatCount := alarmRepeatCount st;
     alarmIntervalSeconds := alarmIntervalSeconds st;
     globalAlarmTime := globalAlarmTime st;
     isPlayingMelody := isPlayingMelody st;
     isShowingLights := isShowingLights st; melodyIndex := melodyIndex st;
     lightIndex := lightIndex st;
     currentRepeatCount := currentRepeatCount st; RTC_TSR := RTC_TSR st;
     RTC_TAR := RTC_TAR st; RTC_SR := v; PTB_PDOR := PTB_PDOR st;
     uart_rx := uart_rx st; trace := trace st |}.

Definition set_PTB_PDOR (v : Z) (st : state) : state :=
  {| interfaceState := interfaceState st; inputBuffer := inputBuffer st;
     inputIndex := inputIndex st; selectedMelodyID := selectedMelodyID st;
     selectedLightEffectID := selectedLightEffectID st;
     alarmEnabled := alarmEnabled st;
     alarmRepeatCount := alarmRepeatCount st;
     alarmIntervalSeconds := alarmIntervalSeconds st;
     globalAlarmTime := globalAlarmTime st;
     isPlayingMelody := isPlayingMelody st;
     isShowingLights := isShowingLights st; melodyIndex := melodyIndex st;
     lightIndex := lightIndex st;
     currentRepeatCount := currentRepeatCount st; RTC_TSR := RTC_TSR st;
     RTC_TAR := RTC_TAR st; RTC_SR := RTC_SR st; PTB_PDOR := v;
     uart_rx := uart_rx st; trace := trace st |}.

Definition set_uart_rx (v : list ascii) (st : state) : state :=
  {| interfaceState := interfaceState st; inputBuffer := inputBuffer st;
     inputIndex := inputIndex st; selectedMelodyID := selectedMelodyID st;
     selectedLightEffectID := selectedLightEffectID st;
     alarmEnabled := alarmEnabled st;
     alarmRepeatCount := alarmRepeatCount st;
     alarmIntervalSeconds := alarmIntervalSeconds st;
     globalAlarmTime := globalAlarmTime st;
     isPlayingMelody := isPlayingMelody st;
     isShowingLights := isShowingLights st; melodyIndex := melodyIndex st;
     lightIndex := lightIndex st;
     currentRepeatCount := currentRepeatCount st; RTC_TSR := RTC_TSR st;
     RTC_TAR := RTC_TAR st; RTC_SR := RTC_SR st; PTB_PDOR := PTB_PDOR st;
     uart_rx := v; trace := trace st |}.

Definition set_trace (v : list event) (st : state) : state :=
  {| interfaceState := interfaceState st; inputBuffer := inputBuffer st;
     inputIndex := inputIndex st; selectedMelodyID := selectedMelodyID st;
     selectedLightEffectID := selectedLightEffectID st;
     alarmEnabled := alarmEnabled st;
     alarmRepeatCount := alarmRepeatCount st;
     alarmIntervalSeconds := alarmIntervalSeconds st;
     globalAlarmTime := globalAlarmTime st;
     isPlayingMelody := isPlayingMelody st;
     isShowingLights := isShowingLights st; melodyIndex := melodyIndex st;
     lightIndex := lightIndex st;
     currentRepeatCount := currentRepeatCount st; RTC_TSR := RTC_TSR st;
     RTC_TAR := RTC_TAR st; RTC_SR := RTC_SR st; PTB_PDOR := PTB_PDOR st;
     uart_rx := uart_rx st; trace := v |}.

(** ** Constants *)

Definition LED_D9  : Z := 0x20.   (* Port B, bit 5 *)
Definition LED_D10 : Z := 0x10.   (* Port B, bit 4 *)
Definition LED_D11 : Z := 0x8.    (* Port B, bit 3 *)
Definition LED_D12 : Z := 0x4.    (* Port B, bit 2 *)

Definition TOTAL_NOTES : Z := 10.
Definition TOTAL_LIGHT_STATES : Z := 20.

(** Bits of the RTC status register, from the device header MK60D10.h. *)
Definition RTC_SR_TAF_MASK : Z := 0x4.
Definition RTC_SR_TCE_MASK : Z := 0x10.

(** [sizeof(inputBuffer)] and the [buffer[100]] locals. *)
Definition BUFFER_SIZE : Z := 100.

(** The state in which [main] enters its loop: the globals at their
    initialisers; the registers as [PortsInit] and [RTCInit] leave them
    (LEDs off, clock at 0, match register at [0xFFFFFFFF], counter on);
    in the trace, what the start has done that the trace records: the
    LED port write of [PortsInit], the wait of [RTCInit] for the
    oscillator, the message of [main]. *)
Definition initial_state : state :=
  {| interfaceState := IDLE;
     inputBuffer := repeat NUL 100;
     inputIndex := 0;
     selectedMelodyID := 1;
     selectedLightEffectID := 1;
     alarmEnabled := false;
     alarmRepeatCount := 5;
     alarmIntervalSeconds := 5;
     globalAlarmTime := 0;
     isPlayingMelody := false;
     isShowingLights := false;
     melodyIndex := 0;
     lightIndex := 0;
     currentRepeatCount := 1;
     RTC_TSR := 0;
     RTC_TAR := 0xFFFFFFFF;
     RTC_SR := RTC_SR_TCE_MASK;
     PTB_PDOR := 0x3C;
     uart_rx := [];
     trace := [EvLeds 0x3C; EvDelay 0x600000; EvSend MsgInitDone] |}.

(** ** Output primitives *)

Definition emit (e : event) (st : state) : state :=
  set_trace (trace st ++ [e]) st.

Definition UARTSendStr (m : message) (st : state) : state :=
  emit (EvSend m) st.

Definition Delay (bound : Z) (st : state) : state :=
  emit (EvDelay bound) st.

(** [uint32_t duration_ms]: the argument is converted on the call. *)
Definition MakeSound (duration_ms : Z) (st : state) : state :=
  let st := emit (EvSpeaker true) st in
  let st := Delay (uint32 duration_ms) st in
  emit (EvSpeaker false) st.

(** An assignment to PTB->PDOR. *)
Definition write_PDOR (v : Z) (st : state) : state :=
  emit (EvLeds (uint32 v)) (set_PTB_PDOR (uint32 v) st).

Definition displayMenu (st : state) : state :=
  UARTSendStr MsgMenu st.

(** ** Tone and light sequencers *)

Definition startMelody (melodyID : Z) (st : state) : state :=
  let st := set_selectedMelodyID melodyID st in
  let st := set_melodyIndex 0 st in
  set_isPlayingMelody true st.

Definition startLightEffect (lightEffectID : Z) (st : state) : state :=
  let st := set_selectedLightEffectID lightEffectID st in
  let st := set_lightIndex 0 st in
  set_isShowingLights true st.

(** The [switch (selectedMelodyID)] of [playNextNote]. *)
Definition melody_case (st : state) : state :=
  let i := melodyIndex st in
  match selectedMelodyID st with
  | 1 =>
      let st := MakeSound (int32 (50000 + int32 (i * 5000))) st in
      Delay 50000 st
  | 2 =>
      let st := MakeSound (int32 (100000 + int32 (i * 10000))) st in
      let st := Delay 10000 st in
      let st := MakeSound (int32 (100000 + int32 (i * 10000))) st in
      let st := Delay 10000 st in
      MakeSound (int32 (100000 + int32 (i * 10000))) st
  | 3 =>
      let st := MakeSound (int32 (10000 + int32 (i * 5000))) st in
      let st := Delay 2000 st in
      let st := MakeSound (int32 (100000 + int32 (i * 5000))) st in
      let st := Delay 10000 st in
      let st := MakeSound (int32 (10000 + int32 (i * 5000))) st in
      let st := Delay 5000 st in
      let st := MakeSound (int32 (100000 + int32 (i * 5000))) st in
      Delay 1000 st
  | _ => st
  end.

Definition playNextNote (st : state) : state :=
  if melodyIndex st <? TOTAL_NOTES then
    let st := melody_case st in
    set_melodyIndex (int32 (melodyIndex st + 1)) st
  else
    set_isPlayingMelody false st.

(** The [switch (selectedLightEffectID)] of [updateLights]. *)
Definition light_case (st : state) : state :=
  let i := lightIndex st in
  match selectedLightEffectID st with
  | 1 =>
      let st :=
        if Z.rem i 2 =? 0
        then write_PDOR (Z.land (PTB_PDOR st) (Z.lnot 0x3C)) st
        else write_PDOR (Z.lor (PTB_PDOR st) 0x3C) st in
      Delay 200000 st
  | 2 =>
      let st := write_PDOR (Z.lnot (int32 (Z.shiftl 1 i))) st in
      Delay 200000 st
  | 3 =>
      let st :=
        write_PDOR (Z.lnot (int32 (Z.shiftl 1 (Z.rem i 4 + 2)))) st in
      Delay 200000 st
  | _ => st
  end.

Definition updateLights (st : state) : state :=
  if lightIndex st <? TOTAL_LIGHT_STATES then
    let st := light_case st in
    set_lightIndex (int32 (lightIndex st + 1)) st
  else
    set_isShowingLights false st.

(** An indicator LED is lit when its line is driven low. *)
Definition led_lit (pdor led : Z) : bool := Z.land pdor led =? 0.

Definition lit_leds (pdor : Z) : list Z :=
  filter (led_lit pdor) [LED_D12; LED_D11; LED_D10; LED_D9].

(** ** Alarm repeat engine *)

Definition handleAlarmRepeats (st : state) : state :=
  if alarmEnabled st then
    if currentRepeatCount st <? int32 (alarmRepeatCount st + 1) then
      let nextAlarmTime :=
        globalAlarmTime st
        + int32 (currentRepeatCount st * alarmIntervalSeconds st) in
      let st :=
        UARTSendStr (MsgAttempt (currentRepeatCount st) nextAlarmTime) st in
      let st := set_RTC_TAR (uint32 nextAlarmTime) st in
      let st := set_currentRepeatCount (int32 (currentRepeatCount st + 1)) st in
      let st := startMelody (selectedMelodyID st) st in
      startLightEffect (selectedLightEffectID st) st
    else
      let st := set_currentRepeatCount 1 st in
      set_RTC_TAR 0 st
  else
    let st := set_currentRepeatCount 1 st in
    set_RTC_TAR 0 st.

Definition playback_guard (st : state) : bool :=
  isPlayingMelody st && isShowingLights st.

Definition playback_measure (st : state) : nat :=
  if isPlayingMelody st
  then S (Z.to_nat (TOTAL_NOTES - melodyIndex st))
  else O.

(** What a playback can change: the two cursors, the LED port, the trace. *)
Definition after_playback (evs : list event) (pdor m l : Z) (pm sl : bool)
  (st : state) : state :=
  set_trace (trace st ++ evs)
    (set_PTB_PDOR pdor
       (set_lightIndex l
          (set_melodyIndex m
             (set_isShowingLights sl (set_isPlayingMelody pm st))))).

(** Reduce projections of updated states, and nothing else. *)
Ltac st_simpl :=
  cbn [interfaceState inputBuffer inputIndex selectedMelodyID
       selectedLightEffectID alarmEnabled alarmRepeatCount
       alarmIntervalSeconds globalAlarmTime isPlayingMelody isShowingLights
       melodyIndex lightIndex currentRepeatCount RTC_TSR RTC_TAR RTC_SR
       PTB_PDOR uart_rx trace
       set_interfaceState set_inputBuffer set_inputIndex
       set_selectedMelodyID set_selectedLightEffectID set_alarmEnabled
       set_alarmRepeatCount set_alarmIntervalSeconds set_globalAlarmTime
       set_isPlayingMelody set_isShowingLights set_melodyIndex
       set_lightIndex set_currentRepeatCount set_RTC_TSR set_RTC_TAR
       set_RTC_SR set_PTB_PDOR set_uart_rx set_trace
       emit UARTSendStr Delay MakeSound write_PDOR displayMenu
       startMelody startLightEffect after_playback] in *.

(** [while (isPlayingMelody && isShowingLights) { playNextNote();
    updateLights(); }] *)
Equations? playback (st : state) : state by wf (playback_measure st) lt :=
  playback st with bool_dec (playback_guard st) true => {
    | left G => playback (updateLights (playNextNote st));
    | right _ => st }.
Proof.
  unfold playback_guard in G. apply andb_true_iff in G as [P _].
  assert (FM : forall s,
             isPlayingMelody (melody_case s) = isPlayingMelody s
             /\ melodyIndex (melody_case s) = melodyIndex s).
  { intros s. unfold melody_case.
    destruct (selectedMelodyID s) as [|[[?|?|]|[?|?|]|]|?];
      split; reflexivity. }
  assert (FL : forall s,
             isPlayingMelody (light_case s) = isPlayingMelody s
             /\ melodyIndex (light_case s) = melodyIndex s).
  { intros s. unfold light_case.
    destruct (selectedLightEffectID s) as [|[[?|?|]|[?|?|]|]|?];
      try destruct (Z.rem (lightIndex s) 2 =? 0); split; reflexivity. }
  assert (FU : forall s,
             isPlayingMelody (updateLights s) = isPlayingMelody s
             /\ melodyIndex (updateLights s) = melodyIndex s).
  { intros s. unfold updateLights.
    destruct (lightIndex s <? TOTAL_LIGHT_STATES); [|split; reflexivity].
    st_simpl. apply FL. }
  unfold playback_measure.
  destruct (FU (playNextNote st)) as [-> ->].
  rewrite P. unfold playNextNote, TOTAL_NOTES.
  destruct (Z.ltb_spec (melodyIndex st) 10) as [L|L]; st_simpl.
  - destruct (FM st) as [-> ->]. rewrite P. unfold int32.
    assert (B := Z.mod_pos_bound (melodyIndex st + 1 + 2 ^ 31) (2 ^ 32)
                   ltac:(lia)).
    destruct (Z_lt_le_dec (melodyIndex st) (- 2 ^ 31 - 1)) as [N|N]; [lia|].
    rewrite Z.mod_small by lia. lia.
  - lia.
Qed.

Definition RTC_IRQHandler (st : state) : state :=
  if negb (Z.land (RTC_SR st) RTC_SR_TAF_MASK =? 0) then
    let st := handleAlarmRepeats st in
    let st :=
      if alarmEnabled st then
        let st := playback st in
        write_PDOR (Z.lor (PTB_PDOR st) 0x3C) st
      else st in
    displayMenu st
  else st.

(** ** Serial input *)

Notation "'let?' p ':=' e 'in' k" :=
  (match e with Some p => k | None => None end)
  (at level 10, p pattern, e at level 200, k at level 200,
   format "'[v' 'let?'  p  ':='  e  'in' '/' k ']'").

(** The receive loop of [UARTReceiveStr]. [line] holds [buffer[0..i)], so
    [i] is its length; the NUL written at [buffer[i]] on the way out makes
    [line] the string the caller sees. [None]: the receiver stays empty
    and the wait on RDRF never ends. *)
Fixpoint UARTReceiveStr_loop (bufferSize : Z) (line rx : list ascii)
  : option (bool * list ascii * list ascii) :=
  match rx with
  | [] => None
  | c :: rx =>
      let i := Z.of_nat (List.length line) in
      if Ascii.eqb c LF || Ascii.eqb c CR then
        if i =? 0 then Some (true, [], rx) else Some (false, line, rx)
      else
        let line :=
          if Ascii.eqb c BS || Ascii.eqb c DEL then
            if 0 <? i then removelast line else line
          else if i <? bufferSize - 1 then line ++ [c]
          else line in
        if Z.of_nat (List.length line) <? bufferSize - 1
        then UARTReceiveStr_loop bufferSize line rx
        else Some (false, line, rx)
  end.

Definition UARTReceiveStr (bufferSize : Z) (st : state)
  : option (bool * list ascii * state) :=
  let? (r, buffer, rx) := UARTReceiveStr_loop bufferSize [] (uart_rx st) in
  Some (r, buffer, set_uart_rx rx st).

(** ** Configuration commands *)

Definition chooseMelody (st : state) : option state :=
  let st := UARTSendStr MsgMelodyPrompt st in
  let? (_, buffer, st) := UARTReceiveStr BUFFER_SIZE st in
  let melodyChoice := atoi (cstr buffer) in
  if (1 <=? melodyChoice) && (melodyChoice <=? 3) then
    let st := set_selectedMelodyID melodyChoice st in
    Some (UARTSendStr MsgMelodyChosen st)
  else
    Some (UARTSendStr MsgChoiceOutOfRange st).

Definition chooseLightEffect (st : state) : option state :=
  let st := UARTSendStr MsgLightPrompt st in
  let? (_, buffer, st) := UARTReceiveStr BUFFER_SIZE st in
  let lightEffectChoice := atoi (cstr buffer) in
  if (1 <=? lightEffectChoice) && (lightEffectChoice <=? 3) then
    let st := set_selectedLightEffectID lightEffectChoice st in
    Some (UARTSendStr MsgLightChosen st)
  else
    Some (UARTSendStr MsgChoiceOutOfRange st).

Definition toggleAlarm (enable : Z) (st : state) : state :=
  if enable =? 1 then
    let st := set_alarmEnabled true st in
    UARTSendStr MsgAlarmOn st
  else if enable =? 0 then
    let st := set_alarmEnabled false st in
    UARTSendStr MsgAlarmOff st
  else
    UARTSendStr MsgToggleInvalid st.

Definition displayAlarmStatus (st : state) : state :=
  let currentTime := RTC_TSR st in
  UARTSendStr
    (MsgStatus (alarmEnabled st) (globalAlarmTime st) currentTime
       (selectedMelodyID st) (selectedLightEffectID st)
       (alarmRepeatCount st) (alarmIntervalSeconds st)) st.

Definition setAlarmRepeat (st : state) : option state :=
  let st := UARTSendStr MsgRepeatCountPrompt st in
  let? (_, buffer, st) := UARTReceiveStr BUFFER_SIZE st in
  let repeatCount := atoi (cstr buffer) in
  if 0 <=? repeatCount then
    let st := set_alarmRepeatCount repeatCount st in
    let st := UARTSendStr MsgRepeatIntervalPrompt st in
    let? (_, buffer, st) := UARTReceiveStr BUFFER_SIZE st in
    let intervalSeconds := atoi (cstr buffer) in
    if 0 <? intervalSeconds then
      let st := set_alarmIntervalSeconds intervalSeconds st in
      Some (UARTSendStr MsgRepeatUpdated st)
    else
      Some (UARTSendStr MsgIntervalInvalid st)
  else
    Some (UARTSendStr MsgRepeatCountInvalid st).

(** ** Date and time entry *)

(** The six fields in the order of the format: year, month, day, hour,
    minute, second. *)
Record datetime : Type := mkDatetime {
  dt_year : Z; dt_month : Z; dt_day : Z;
  dt_hour : Z; dt_min : Z; dt_sec : Z
}.

(** The "basic validation" of [getUserTimeInput]. *)
Definition fields_in_range (d : datetime) : bool :=
  (1900 <? dt_year d)
  && (1 <=? dt_month d) && (dt_month d <=? 12)
  && (1 <=? dt_day d) && (dt_day d <=? 31)
  && (0 <=? dt_hour d) && (dt_hour d <? 24)
  && (0 <=? dt_min d) && (dt_min d <? 60)
  && (0 <=? dt_sec d) && (dt_sec d <? 60).

(** The result is [Some d] where the C function returns true, with the
    values it left behind its six pointers. *)
Definition getUserTimeInput (st : state) : option (option datetime * state) :=
  let st := UARTSendStr MsgTimePrompt st in
  let? (_, buffer, st) := UARTReceiveStr BUFFER_SIZE st in
  match sscanf datetime_format (cstr buffer) with
  | [year; month; day; hour; min; sec] =>
      let d := mkDatetime year month day hour min sec in
      if fields_in_range d then Some (Some d, st)
      else Some (None, UARTSendStr MsgTimeOutOfRange st)
  | _ => Some (None, UARTSendStr MsgTimeFormat st)
  end.

Section WithLibc.

(** [mktime] of the C library: broken-down local time to [time_t]. *)
Variable mktime : tm -> Z.

Definition setClock (st : state) : option state :=
  let? (input, st) := getUserTimeInput st in
  let '(st, timeSet) :=
    match input with
    | Some d =>
        let timeStruct :=
          {| tm_year := int32 (dt_year d - 1900);
             tm_mon := int32 (dt_month d - 1);
             tm_mday := dt_day d;
             tm_hour := dt_hour d;
             tm_min := dt_min d;
             tm_sec := dt_sec d;
             tm_isdst := None |} in
        let time := mktime timeStruct in
        let st :=
          set_RTC_SR (Z.land (RTC_SR st) (uint32 (Z.lnot RTC_SR_TCE_MASK))) st in
        let st := set_RTC_TSR (uint32 time) st in
        let st := set_RTC_SR (Z.lor (RTC_SR st) RTC_SR_TCE_MASK) st in
        (st, true)
    | None => (st, false)
    end in
  if timeSet then Some (UARTSendStr MsgClockSet st)
  else Some (UARTSendStr MsgClockNotSet st).

Definition setAlarm (st : state) : option state :=
  let? (input, st) := getUserTimeInput st in
  let '(st, alarmSet) :=
    match input with
    | Some d =>
        let alarmTime :=
          {| tm_year := int32 (dt_year d - 1900);
             tm_mon := int32 (dt_month d - 1);
             tm_mday := dt_day d;
             tm_hour := dt_hour d;
             tm_min := dt_min d;
             tm_sec := dt_sec d;
             tm_isdst := Some (-1) |} in
        let st := set_globalAlarmTime (mktime alarmTime) st in
        let st :=
          set_RTC_SR (Z.land (RTC_SR st) (uint32 (Z.lnot RTC_SR_TCE_MASK))) st in
        let st := set_RTC_TAR (uint32 (globalAlarmTime st)) st in
        let st := set_RTC_SR (Z.lor (RTC_SR st) RTC_SR_TCE_MASK) st in
        (st, true)
    | None => (st, false)
    end in
  if alarmSet then Some (UARTSendStr MsgAlarmSet st)
  else Some (UARTSendStr MsgAlarmNotSet st).

(** ** Command reader and dispatcher *)

Definition processUserInput (input : list ascii) (st : state) : option state :=
  let choice := atoi input in
  match choice with
  | 1 => let? st := setClock st in Some (displayMenu st)
  | 2 => let? st := setAlarm st in Some (displayMenu st)
  | 3 =>
      let st := UARTSendStr MsgTogglePrompt st in
      let? (_, buffer, st) := UARTReceiveStr BUFFER_SIZE st in
      let st :=
        match sscanf [DInt] (cstr buffer) with
        | [enable] => toggleAlarm enable st
        | _ => UARTSendStr MsgToggleFormat st
        end in
      Some (displayMenu st)
  | 4 => let? st := chooseMelody st in Some (displayMenu st)
  | 5 => let? st := chooseLightEffect st in Some (displayMenu st)
  | 6 => let? st := setAlarmRepeat st in Some (displayMenu st)
  | 7 => let st := displayAlarmStatus st in Some (displayMenu st)
  | _ => Some (displayMenu st)
  end.

(** One poll of the main loop. RDRF is set while a byte waits at the
    receiver; reading UART5_D takes it. The comparison with
    [sizeof(inputBuffer) - 1] is unsigned. *)
Definition checkUserInput (st : state) : option state :=
  match interfaceState st with
  | IDLE =>
      match uart_rx st with
      | _ :: _ =>
          let st := set_interfaceState READING_INPUT st in
          Some (set_inputIndex 0 st)
      | [] => Some st
      end
  | READING_INPUT =>
      match uart_rx st with
      | receivedChar :: rx =>
          let st := set_uart_rx rx st in
          if negb (Ascii.eqb receivedChar LF)
             && negb (Ascii.eqb receivedChar CR)
             && (uint32 (inputIndex st) <? uint32 (BUFFER_SIZE - 1))
          then
            let st :=
              set_inputBuffer
                (store (inputBuffer st) (Z.to_nat (inputIndex st)) receivedChar)
                st in
            Some (set_inputIndex (int32 (inputIndex st + 1)) st)
          else
            let st :=
              set_inputBuffer
                (store (inputBuffer st) (Z.to_nat (inputIndex st)) NUL) st in
            Some (set_interfaceState PROCESSING_INPUT st)
      | [] => Some st
      end
  | PROCESSING_INPUT =>
      let? st := processUserInput (cstr (inputBuffer st)) st in
      Some (set_interfaceState IDLE st)
  end.

(** [n] turns of the [while (1)] of [main]. *)
Fixpoint poll (n : nat) (st : state) : option state :=
  match n with
  | O => Some st
  | S n => let? st := checkUserInput st in poll n st
  end.

End WithLibc.

(** ** A [mktime] to run the model with

    For a target without time zone data local time is UTC, and [mktime]
    is the day count of the proleptic Gregorian calendar; a day or month
    past its range carries into the next month or year. *)

Definition days_from_civil (y m d : Z) : Z :=
  let y := if m <=? 2 then y - 1 else y in
  let era := y / 400 in
  let yoe := y - era * 400 in
  let mp := (m + 9) mod 12 in
  let doy := (153 * mp + 2) / 5 + d - 1 in
  let doe := yoe * 365 + yoe / 4 - yoe / 100 + doy in
  era * 146097 + doe - 719468.

Definition mktime_utc (t : tm) : Z :=
  let y := 1900 + tm_year t + tm_mon t / 12 in
  let m := tm_mon t mod 12 + 1 in
  let days := days_from_civil y m 1 + (tm_mday t - 1) in
  ((days * 24 + tm_hour t) * 60 + tm_min t) * 60 + tm_sec t.

(** ** Running the alarm

    A match event: the clock reaches the armed time and the RTC raises
    the alarm flag; the interrupt handler runs. *)
Definition match_event (st : state) : state :=
  let st := set_RTC_TSR (RTC_TAR st) st in
  let st := set_RTC_SR (Z.lor (RTC_SR st) RTC_SR_TAF_MASK) st in
  RTC_IRQHandler st.

Definition is_speaker_on (e : event) : bool :=
  match e with EvSpeaker true => true | _ => false end.

Definition is_leds (e : event) : bool :=
  match e with EvLeds _ => true | _ => false end.

(** The events a run from [st] to [st'] added. *)
Definition added (st st' : state) : list event :=
  skipn (List.length (trace st)) (trace st').

(** Did the run from [st] to [st'] play a tone? *)
Definition played (st st' : state) : bool :=
  existsb is_speaker_on (added st st').

(** The match events of one alarm, from the armed state on: a match
    register at 0 is disarmed and ends the sequence. The result lists,
    per match event, whether the alarm played and the match register the
    handler left. *)
Fixpoint firing (fuel : nat) (st : state) : list (bool * Z) :=
  match fuel with
  | O => []
  | S fuel =>
      if RTC_TAR st =? 0 then []
      else
        let st' := match_event st in
        (played st st', RTC_TAR st') :: firing fuel st'
  end.

(** An ordinary character: not a line end, an erase code or NUL. *)
Definition plain (c : ascii) : bool :=
  negb (Ascii.eqb c LF) && negb (Ascii.eqb c CR)
  && negb (Ascii.eqb c BS) && negb (Ascii.eqb c DEL)
  && negb (Ascii.eqb c NUL).

(** The bytes a user sends by typing these lines, each ended by Enter. *)
Definition lines (l : list string) : list ascii :=
  flat_map (fun s => list_ascii_of_string s ++ [LF]) l.

(** The state with these lines waiting at the receiver. *)
Definition entered (l : list string) (st : state) : state :=
  set_uart_rx (lines l) st.

(** [f] applied [n] times, with every state on the way. *)
Fixpoint steps (n : nat) (f : state -> state) (st : state) : list state :=
  match n with
  | O => []
  | S n => let st := f st in st :: steps n f st
  end.

(** The alarm set for [alarmTime], enabled, with repeat count [n] and
    interval [k], on the freshly started device. *)
Definition armed (alarmTime n k : Z) : state :=
  set_RTC_TAR (uint32 alarmTime)
    (set_globalAlarmTime alarmTime
       (set_alarmIntervalSeconds k
          (set_alarmRepeatCount n (set_alarmEnabled true initial_state)))).

(** The state a match event hands to the handler. *)
Definition raised (st : state) : state :=
  set_RTC_SR (Z.lor (RTC_SR st) RTC_SR_TAF_MASK) (set_RTC_TSR (RTC_TAR st) st).

(** An alarm in the middle of its run: configuration [(t, n, k)], the
    repeat counter at [c], a valid melody, no playback pending. *)
Record running (t n k c : Z) (st : state) : Prop := {
  run_enabled : alarmEnabled st = true;
  run_count : alarmRepeatCount st = n;
  run_interval : alarmIntervalSeconds st = k;
  run_time : globalAlarmTime st = t;
  run_progress : currentRepeatCount st = c;
  run_melody : 1 <= selectedMelodyID st <= 3;
  run_idle : isPlayingMelody st = false;
  run_armed : RTC_TAR st <> 0
}.

(** The number of match events of a firing sequence that played. *)
Definition episodes (l : list (bool * Z)) : nat :=
  List.length (filter fst l).

(** The match times a firing sequence armed. *)
Definition rearms (l : list (bool * Z)) : list Z :=
  filter (fun v => negb (v =? 0)) (map snd l).

(** How many of these events satisfy [p]. *)
Definition count_events (p : event -> bool) (evs : list event) : nat :=
  List.length (filter p evs).

(** A line as a user types it: at least one and fewer than 99 ordinary
    characters, then Enter. *)
Definition typed_line (l : list ascii) : Prop :=
  forallb plain l = true /\ l <> [] /\ Z.of_nat (List.length l) < BUFFER_SIZE - 1.

(** An alarm two match events into its run, with a new alarm time typed. *)
Definition mid_run : state :=
  entered ["2030-01-01 07:00:00"]%string
    (match_event (match_event (armed 1000 5 5))).

(** ** The transmitter, byte by byte

    [UARTSendStr] on the characters of its argument: every character up
    to the terminating NUL goes to [SendCh], and a line feed is followed
    by a carriage return. (The wait of [SendCh] for the transmitter to be
    ready is left out: it ends when the hardware has sent the byte
    before.) *)
Fixpoint UARTSendStr_bytes (s : list ascii) : list ascii :=
  match s with
  | [] => []
  | c :: rest =>
      if Ascii.eqb c NUL then []
      else if Ascii.eqb c LF then c :: CR :: UARTSendStr_bytes rest
      else c :: UARTSendStr_bytes rest
  end.

(** ** Invariants *)

(** The settings the commands guard: melody and light effect in 1..3, a
    repeat count that is not negative, a positive interval. *)
Record config_ok (st : state) : Prop := {
  melody_ok : 1 <= selectedMelodyID st <= 3;
  light_ok : 1 <= selectedLightEffectID st <= 3;
  count_ok : 0 <= alarmRepeatCount st;
  interval_ok : 0 < alarmIntervalSeconds st
}.

(** The command line buffer: 100 characters, the index inside it with
    room for the terminating NUL. *)
Record input_ok (st : state) : Prop := {
  index_ok : 0 <= inputIndex st <= 99;
  buffer_ok : List.length (inputBuffer st) = 100%nat
}.

(** What a command may touch besides the settings: the receiver and the
    trace. [io_only st st'] says [st'] differs from [st] in these two
    only, the trace by additions. *)
Definition io_only (st st' : state) : Prop :=
  exists evs, st' = set_trace (trace st ++ evs) (set_uart_rx (uart_rx st') st).

(** A character of a command line: not a line end, not NUL. *)
Definition line_char (c : ascii) : bool :=
  negb (Ascii.eqb c LF) && negb (Ascii.eqb c CR) && negb (Ascii.eqb c NUL).

(** The [struct tm] that [setClock] and [setAlarm] build from an entry. *)
Definition tm_of (d : datetime) (isdst : option Z) : tm :=
  mkTm (dt_sec d) (dt_min d) (dt_hour d) (dt_day d)
    (int32 (dt_month d - 1)) (int32 (dt_year d - 1900)) isdst.

(** All four indicator LEDs, in the order of [lit_leds]. *)
Definition all_leds : list Z := [LED_D12; LED_D11; LED_D10; LED_D9].

(** What no command of the menu touches: the reader's own state, the two
    playback cursors, the repeat counter and the LED port. *)
Record runtime_kept (st st' : state) : Prop := {
  kept_interface : interfaceState st' = interfaceState st;
  kept_buffer : inputBuffer st' = inputBuffer st;
  kept_index : inputIndex st' = inputIndex st;
  kept_playing : isPlayingMelody st' = isPlayingMelody st;
  kept_showing : isShowingLights st' = isShowingLights st;
  kept_melodyIndex : melodyIndex st' = melodyIndex st;
  kept_lightIndex : lightIndex st' = lightIndex st;
  kept_progress : currentRepeatCount st' = currentRepeatCount st;
  kept_leds : PTB_PDOR st' = PTB_PDOR st
}.

(** One tone: the speaker line high for [d] counts of the delay loop. *)
Definition tone (d : Z) : list event :=
  [EvSpeaker true; EvDelay d; EvSpeaker false].

Definition is_speaker (e : event) : bool :=
  match e with EvSpeaker _ => true | _ => false end.

(** ** The device at work

    What can happen to the running device, seen from the program: the
    main loop takes a turn, the clock reaches the armed time and the
    handler runs between two turns, bytes arrive at the receiver. *)
Inductive happening : Type :=
| Turn
| Match
| Arrive (bytes : list ascii).

Fixpoint run (mktime : tm -> Z) (hs : list happening) (st : state)
  : option state :=
  match hs with
  | [] => Some st
  | Turn :: hs => let? st := checkUserInput mktime st in run mktime hs st
  | Match :: hs => run mktime hs (match_event st)
  | Arrive bytes :: hs => run mktime hs (set_uart_rx (uart_rx st ++ bytes) st)
  end.

(** * Properties *)

(** ** What the two switches leave alone *)

Lemma melody_case_frame (st : state) :
  melody_case st = set_trace (trace (melody_case st)) st.
Proof.
  unfold melody_case.
  destruct (selectedMelodyID st) as [|[[?|?|]|[?|?|]|]|?];
    destruct st; reflexivity.
Qed.

Lemma light_case_frame (st : state) :
  light_case st =
  set_trace (trace (light_case st))
    (set_PTB_PDOR (PTB_PDOR (light_case st)) st).
Proof.
  unfold light_case.
  destruct (selectedLightEffectID st) as [|[[?|?|]|[?|?|]|]|?];
    try destruct (Z.rem (lightIndex st) 2 =? 0);
    destruct st; reflexivity.
Qed.

(** The loop, as an equation. *)
Lemma playback_loop_eq (st : state) :
  playback st =
  if playback_guard st then playback (updateLights (playNextNote st)) else st.
Proof.
  rewrite playback_equation_1.
  destruct (bool_dec (playback_guard st) true) as [G|G]; simp playback.
  - replace (playback_guard st) with true. reflexivity.
  - destruct (playback_guard st); [contradiction G; reflexivity | reflexivity].
Qed.

(** ** Integer facts *)

Lemma int32_small (z : Z) : - 2 ^ 31 <= z < 2 ^ 31 -> int32 z = z.
Proof. intros H. unfold int32. rewrite Z.mod_small by lia. lia. Qed.

Lemma uint32_small (z : Z) : 0 <= z < 2 ^ 32 -> uint32 z = z.
Proof. intros H. unfold uint32. apply Z.mod_small. lia. Qed.

Lemma taf_raised (sr : Z) :
  Z.land (Z.lor sr RTC_SR_TAF_MASK) RTC_SR_TAF_MASK = RTC_SR_TAF_MASK.
Proof.
  apply Z.bits_inj'. intros i _.
  rewrite Z.land_spec, Z.lor_spec.
  destruct (Z.testbit RTC_SR_TAF_MASK i), (Z.testbit sr i); reflexivity.
Qed.

(** ** The sequencers, step by step *)

Lemma playNextNote_step (st : state) :
  melodyIndex st < TOTAL_NOTES ->
  playNextNote st =
  set_melodyIndex (int32 (melodyIndex st + 1))
    (set_trace (trace (melody_case st)) st).
Proof.
  intros L. unfold playNextNote.
  apply Z.ltb_lt in L. rewrite L.
  rewrite melody_case_frame. reflexivity.
Qed.

Lemma playNextNote_done (st : state) :
  TOTAL_NOTES <= melodyIndex st ->
  playNextNote st = set_isPlayingMelody false st.
Proof.
  intros L. unfold playNextNote.
  apply Z.ltb_ge in L. rewrite L. reflexivity.
Qed.

Lemma updateLights_step (st : state) :
  lightIndex st < TOTAL_LIGHT_STATES ->
  updateLights st =
  set_lightIndex (int32 (lightIndex st + 1))
    (set_trace (trace (light_case st))
       (set_PTB_PDOR (PTB_PDOR (light_case st)) st)).
Proof.
  intros L. unfold updateLights.
  apply Z.ltb_lt in L. rewrite L.
  rewrite light_case_frame. reflexivity.
Qed.

Lemma updateLights_done (st : state) :
  TOTAL_LIGHT_STATES <= lightIndex st ->
  updateLights st = set_isShowingLights false st.
Proof.
  intros L. unfold updateLights.
  apply Z.ltb_ge in L. rewrite L. reflexivity.
Qed.

(** The sequencers only ever add to the trace. *)

Lemma melody_case_trace (st : state) :
  exists evs, trace (melody_case st) = trace st ++ evs.
Proof.
  unfold melody_case.
  destruct (selectedMelodyID st) as [|[[?|?|]|[?|?|]|]|?];
    st_simpl; repeat rewrite <- app_assoc;
    try (eexists; reflexivity); exists []; symmetry; apply app_nil_r.
Qed.

Lemma light_case_trace (st : state) :
  exists evs, trace (light_case st) = trace st ++ evs.
Proof.
  unfold light_case.
  destruct (selectedLightEffectID st) as [|[[?|?|]|[?|?|]|]|?];
    try destruct (Z.rem (lightIndex st) 2 =? 0);
    st_simpl; repeat rewrite <- app_assoc;
    try (eexists; reflexivity); exists []; symmetry; apply app_nil_r.
Qed.

(** A valid melody opens each step with the speaker line going high. *)
Lemma melody_case_sounds (st : state) :
  1 <= selectedMelodyID st <= 3 ->
  exists evs, trace (melody_case st) = trace st ++ EvSpeaker true :: evs.
Proof.
  intros H. unfold melody_case.
  destruct (selectedMelodyID st) as [|[[?|?|]|[?|?|]|]|?]; try lia;
    st_simpl; repeat rewrite <- app_assoc; eexists; reflexivity.
Qed.

(** ** The playback loop of the interrupt handler *)

(** One turn of the loop while both sequences have steps left. *)
Lemma loop_body_step (st : state) :
  melodyIndex st < TOTAL_NOTES ->
  lightIndex st < TOTAL_LIGHT_STATES ->
  exists evs pdor,
    updateLights (playNextNote st) =
    after_playback evs pdor
      (int32 (melodyIndex st + 1)) (int32 (lightIndex st + 1))
      (isPlayingMelody st) (isShowingLights st) st.
Proof.
  intros M L.
  rewrite (playNextNote_step st M).
  rewrite updateLights_step by exact L.
  destruct (melody_case_trace st) as [e1 E1].
  match goal with |- context [light_case ?s] =>
    destruct (light_case_trace s) as [e2 E2]; rewrite E2;
    generalize (PTB_PDOR (light_case s)); intros p
  end.
  st_simpl. rewrite E1.
  exists (e1 ++ e2), p. unfold after_playback. st_simpl.
  rewrite app_assoc. reflexivity.
Qed.

(** The turn in which the melody is found finished: the lights still take
    their step. *)
Lemma loop_body_last (st : state) :
  melodyIndex st = TOTAL_NOTES ->
  lightIndex st < TOTAL_LIGHT_STATES ->
  exists evs pdor,
    updateLights (playNextNote st) =
    after_playback evs pdor
      TOTAL_NOTES (int32 (lightIndex st + 1)) false (isShowingLights st) st.
Proof.
  intros M L.
  rewrite playNextNote_done by lia.
  rewrite updateLights_step by exact L.
  match goal with |- context [light_case ?s] =>
    destruct (light_case_trace s) as [e E]; rewrite E;
    generalize (PTB_PDOR (light_case s)); intros p
  end.
  st_simpl.
  exists e, p. unfold after_playback. st_simpl.
  rewrite <- M. reflexivity.
Qed.

(** From step [j] of both sequences the loop runs until the melody is over:
    tone index 10, light index 11, the light cursor still active. *)
Lemma playback_from (d : nat) : forall st : state,
  isPlayingMelody st = true ->
  isShowingLights st = true ->
  melodyIndex st = TOTAL_NOTES - Z.of_nat d ->
  lightIndex st = TOTAL_NOTES - Z.of_nat d ->
  (d <= 10)%nat ->
  exists evs pdor,
    playback st = after_playback evs pdor TOTAL_NOTES 11 false true st.
Proof.
  unfold TOTAL_NOTES.
  induction d as [|d IH]; intros st P S M L D.
  - rewrite playback_loop_eq. unfold playback_guard. rewrite P, S.
    cbn [andb].
    destruct (loop_body_last st) as (evs & pdor & E);
      [exact M | unfold TOTAL_LIGHT_STATES; lia |].
    rewrite E. rewrite playback_loop_eq. unfold playback_guard.
    st_simpl. cbn [andb].
    rewrite L, S. exists evs, pdor. reflexivity.
  - rewrite playback_loop_eq. unfold playback_guard. rewrite P, S.
    cbn [andb].
    destruct (loop_body_step st) as (evs & pdor & E);
      [unfold TOTAL_NOTES; lia | unfold TOTAL_LIGHT_STATES; lia |].
    rewrite E.
    rewrite (int32_small (melodyIndex st + 1)) by lia.
    rewrite (int32_small (lightIndex st + 1)) by lia.
    destruct (IH (after_playback evs pdor (melodyIndex st + 1)
                    (lightIndex st + 1) (isPlayingMelody st)
                    (isShowingLights st) st))
      as (evs' & pdor' & E'); st_simpl; try assumption; try lia.
    rewrite E'. exists (evs ++ evs'), pdor'.
    unfold after_playback. st_simpl. rewrite <- app_assoc. reflexivity.
Qed.

(** A playback started by the handler, with a valid melody: it sounds, and
    ends with the melody over and the light sequence cut short. *)
Lemma playback_from_start (st : state) :
  isPlayingMelody st = true ->
  isShowingLights st = true ->
  melodyIndex st = 0 ->
  lightIndex st = 0 ->
  1 <= selectedMelodyID st <= 3 ->
  exists evs pdor,
    playback st =
    after_playback (EvSpeaker true :: evs) pdor TOTAL_NOTES 11 false true st.
Proof.
  intros P S M L V.
  rewrite playback_loop_eq. unfold playback_guard. rewrite P, S. cbn [andb].
  rewrite playNextNote_step by (unfold TOTAL_NOTES; lia).
  destruct (melody_case_sounds st V) as [e1 E1]. rewrite E1.
  rewrite updateLights_step by (st_simpl; unfold TOTAL_LIGHT_STATES; lia).
  match goal with |- context [light_case ?s] =>
    destruct (light_case_trace s) as [e2 E2]; rewrite E2;
    generalize (PTB_PDOR (light_case s)); intros p1
  end.
  st_simpl. rewrite M, L.
  rewrite !int32_small by lia. cbn [Z.add Pos.add].
  match goal with |- context [playback ?s] =>
    destruct (playback_from 9 s) as (evs & pdor & E)
  end; st_simpl; try assumption; try reflexivity; try lia.
  rewrite E. unfold after_playback. st_simpl.
  exists (e1 ++ e2 ++ evs), pdor.
  repeat rewrite <- app_assoc. reflexivity.
Qed.

(** ** One match event *)

Lemma added_app (st st' : state) (evs : list event) :
  trace st' = trace st ++ evs -> added st st' = evs.
Proof.
  intros E. unfold added. rewrite E.
  rewrite skipn_app, skipn_all, Nat.sub_diag. reflexivity.
Qed.

(** Two states that differ in their traces only. *)
Lemma set_trace_ext (t1 t2 : list event) (s1 s2 : state) :
  t1 = t2 -> set_trace [] s1 = set_trace [] s2 ->
  set_trace t1 s1 = set_trace t2 s2.
Proof.
  intros -> H.
  change (set_trace t2 (set_trace [] s1) = set_trace t2 (set_trace [] s2)).
  rewrite H. reflexivity.
Qed.

Ltac trace_eq :=
  unfold raised; st_simpl; repeat rewrite <- app_assoc; reflexivity.

Ltac state_eq :=
  cbv beta delta [displayMenu UARTSendStr emit after_playback];
  apply set_trace_ext;
  [ st_simpl; repeat rewrite <- app_assoc; reflexivity | reflexivity ].

(** Repeats left: the handler re-arms, counts and plays. *)
Lemma match_event_rearm (st : state) :
  alarmEnabled st = true ->
  currentRepeatCount st < int32 (alarmRepeatCount st + 1) ->
  1 <= selectedMelodyID st <= 3 ->
  let next :=
    globalAlarmTime st
    + int32 (currentRepeatCount st * alarmIntervalSeconds st) in
  exists evs pdor,
    match_event st =
    after_playback
      (EvSend (MsgAttempt (currentRepeatCount st) next)
         :: EvSpeaker true :: evs)
      pdor TOTAL_NOTES 11 false true
      (set_RTC_TAR (uint32 next)
         (set_currentRepeatCount (int32 (currentRepeatCount st + 1))
            (raised st))).
Proof.
  intros En Lt V next.
  unfold match_event, RTC_IRQHandler. st_simpl.
  rewrite taf_raised. cbn [RTC_SR_TAF_MASK Z.eqb negb].
  unfold handleAlarmRepeats. st_simpl. rewrite En.
  apply Z.ltb_lt in Lt. rewrite Lt. fold next.
  match goal with |- context [playback ?s] =>
    destruct (playback_from_start s) as (evs & pdor & E)
  end; st_simpl; try reflexivity; try assumption.
  rewrite E. st_simpl. rewrite En. st_simpl.
  exists (evs ++ [EvLeds (uint32 (Z.lor pdor 60)); EvSend MsgMenu]).
  exists (uint32 (Z.lor pdor 60)).
  state_eq.
Qed.

(** Repeats used up, nothing playing: the handler disarms and resets. *)
Lemma match_event_exhausted (st : state) :
  alarmEnabled st = true ->
  int32 (alarmRepeatCount st + 1) <= currentRepeatCount st ->
  playback_guard st = false ->
  match_event st =
  displayMenu
    (write_PDOR (Z.lor (PTB_PDOR st) 0x3C)
       (set_RTC_TAR 0 (set_currentRepeatCount 1 (raised st)))).
Proof.
  intros En Ge G.
  unfold match_event, RTC_IRQHandler. st_simpl.
  rewrite taf_raised. cbn [RTC_SR_TAF_MASK Z.eqb negb].
  unfold handleAlarmRepeats. st_simpl. rewrite En.
  apply Z.ltb_ge in Ge. rewrite Ge. st_simpl. rewrite En.
  rewrite playback_loop_eq. unfold playback_guard in *. st_simpl.
  rewrite G. reflexivity.
Qed.

(** Alarm disabled: the handler disarms and resets, whatever the count. *)
Lemma match_event_disabled (st : state) :
  alarmEnabled st = false ->
  match_event st =
  displayMenu (set_RTC_TAR 0 (set_currentRepeatCount 1 (raised st))).
Proof.
  intros En.
  unfold match_event, RTC_IRQHandler. st_simpl.
  rewrite taf_raised. cbn [RTC_SR_TAF_MASK Z.eqb negb].
  unfold handleAlarmRepeats. st_simpl. rewrite En. st_simpl.
  rewrite En. reflexivity.
Qed.

(** ** The whole firing sequence *)

Lemma running_rearm (t n k c : Z) (st : state) :
  running t n k c st ->
  1 <= c <= n -> n < 2 ^ 31 - 1 -> 0 < k -> n * k < 2 ^ 31 ->
  0 < t -> t + n * k < 2 ^ 32 ->
  running t n k (c + 1) (match_event st)
  /\ played st (match_event st) = true
  /\ RTC_TAR (match_event st) = t + c * k.
Proof.
  intros [En N K T C V I A] Hc Hn Hk Hnk Ht Htn.
  assert (Hck : 0 < c * k <= n * k) by nia.
  destruct (match_event_rearm st) as (evs & pdor & E); try assumption.
  { rewrite C, N, int32_small by lia. lia. }
  rewrite E, C, K, T, (int32_small (c * k)), (int32_small (c + 1)) by lia.
  rewrite uint32_small by lia.
  split; [constructor; st_simpl; unfold raised; st_simpl;
          try assumption; try reflexivity; lia|].
  split; [|reflexivity].
  unfold played. erewrite added_app; [|trace_eq].
  reflexivity.
Qed.

Lemma running_exhausted (t n k : Z) (st : state) :
  running t n k (n + 1) st ->
  0 <= n < 2 ^ 31 - 1 ->
  played st (match_event st) = false /\ RTC_TAR (match_event st) = 0.
Proof.
  intros [En N K T C V I A] Hn.
  rewrite match_event_exhausted; try assumption.
  - split; [|reflexivity].
    unfold played. erewrite added_app; [|trace_eq].
    reflexivity.
  - rewrite C, N, int32_small by lia. lia.
  - unfold playback_guard. rewrite I. reflexivity.
Qed.

(** The firing sequence of an alarm with repeat count [n] and interval
    [k], from any point [c] of its run: the match events numbered
    [c .. n] play and re-arm to [t + c*k .. t + n*k]; one more match event
    follows, which plays nothing and disarms. *)
Lemma firing_from (d : nat) : forall (t n k c : Z) (st : state) (fuel : nat),
  running t n k c st ->
  1 <= c -> c + Z.of_nat d = n + 1 ->
  n < 2 ^ 31 - 1 -> 0 < k -> n * k < 2 ^ 31 -> 0 < t -> t + n * k < 2 ^ 32 ->
  (d < fuel)%nat ->
  firing fuel st =
  map (fun i => (true, t + (c + Z.of_nat i) * k)) (seq 0 d) ++ [(false, 0)].
Proof.
  induction d as [|d IH]; intros t n k c st fuel R Hc Hd Hn Hk Hnk Ht Htn Hf.
  - assert (c = n + 1) by lia. subst c.
    destruct (running_exhausted t n k st R) as [P A]; [lia|].
    destruct fuel as [|fuel]; [lia|]. cbn [firing seq map app].
    apply run_armed in R. apply Z.eqb_neq in R. rewrite R, P, A.
    destruct fuel; [reflexivity|]. cbn [firing]. rewrite A. reflexivity.
  - destruct (running_rearm t n k c st R) as (R' & P & A); try lia.
    destruct fuel as [|fuel]; [lia|]. cbn [firing].
    pose proof (run_armed _ _ _ _ _ R) as NZ. apply Z.eqb_neq in NZ.
    rewrite NZ, P, A.
    rewrite (IH t n k (c + 1) (match_event st) fuel R') by lia.
    cbn [seq map app]. rewrite Z.add_0_r. f_equal. f_equal.
    rewrite <- seq_shift, map_map.
    apply map_ext. intros i. f_equal. f_equal. lia.
Qed.

Lemma firing_schedule (t k : Z) (n : nat) (st : state) (fuel : nat) :
  running t (Z.of_nat n) k 1 st ->
  Z.of_nat n < 2 ^ 31 - 1 -> 0 < k -> Z.of_nat n * k < 2 ^ 31 ->
  0 < t -> t + Z.of_nat n * k < 2 ^ 32 ->
  (n < fuel)%nat ->
  firing fuel st =
  map (fun i => (true, t + Z.of_nat i * k)) (seq 1 n) ++ [(false, 0)].
Proof.
  intros R Hn Hk Hnk Ht Htn Hf.
  rewrite (firing_from n t (Z.of_nat n) k 1 st fuel) by (assumption || lia).
  f_equal. rewrite <- seq_shift, map_map.
  apply map_ext. intros i. f_equal. f_equal. lia.
Qed.

(** ** Receiving a line *)

Lemma UARTReceiveStr_loop_line (bufferSize : Z) (l : list ascii) :
  forall acc rest : list ascii,
  forallb plain l = true ->
  acc ++ l <> [] ->
  Z.of_nat (List.length (acc ++ l)) < bufferSize - 1 ->
  UARTReceiveStr_loop bufferSize acc (l ++ LF :: rest)
  = Some (false, acc ++ l, rest).
Proof.
  induction l as [|c l IH]; intros acc rest P NE Len.
  - rewrite app_nil_r in *. cbn [app UARTReceiveStr_loop].
    cbn [Ascii.eqb LF CR Bool.eqb orb andb].
    destruct acc as [|a acc]; [contradiction NE; reflexivity|].
    reflexivity.
  - cbn [forallb] in P. apply andb_true_iff in P as [Pc Pl].
    cbn [app UARTReceiveStr_loop].
    unfold plain in Pc.
    repeat (apply andb_true_iff in Pc as [Pc ?]).
    repeat match goal with
           | H : negb ?b = true |- _ => apply negb_true_iff in H; rewrite H
           end.
    cbn [orb].
    rewrite length_app in Len. cbn [List.length] in Len.
    assert (L1 : (Z.of_nat (List.length acc) <? bufferSize - 1) = true)
      by (apply Z.ltb_lt; lia).
    rewrite L1.
    assert (L2 : (Z.of_nat (List.length (acc ++ [c])) <? bufferSize - 1) = true)
      by (apply Z.ltb_lt; rewrite length_app; cbn [List.length]; lia).
    rewrite L2.
    rewrite (IH (acc ++ [c]) rest Pl); rewrite <- app_assoc; cbn [app].
    + reflexivity.
    + intros E. apply app_eq_nil in E as [_ E]. discriminate E.
    + rewrite length_app. cbn [List.length]. lia.
Qed.

Lemma cstr_plain (l : list ascii) : forallb plain l = true -> cstr l = l.
Proof.
  induction l as [|c l IH]; intros P; [reflexivity|].
  cbn [forallb] in P. apply andb_true_iff in P as [Pc Pl].
  cbn [cstr]. unfold plain in Pc.
  repeat (apply andb_true_iff in Pc as [Pc ?]).
  repeat match goal with
         | H : negb ?b = true |- _ => apply negb_true_iff in H; try rewrite H
         end.
  rewrite IH by exact Pl. reflexivity.
Qed.

Lemma UARTReceiveStr_line (st : state) (l rest : list ascii) :
  typed_line l ->
  uart_rx st = l ++ LF :: rest ->
  UARTReceiveStr BUFFER_SIZE st = Some (false, l, set_uart_rx rest st).
Proof.
  intros (P & NE & Len) E. unfold UARTReceiveStr. rewrite E.
  rewrite (UARTReceiveStr_loop_line BUFFER_SIZE l [] rest P NE Len).
  reflexivity.
Qed.

(** * The claims *)

(** ** Repeat schedule (C1) *)

Lemma firing_episodes (t k : Z) (n : nat) (st : state) (fuel : nat) :
  running t (Z.of_nat n) k 1 st ->
  Z.of_nat n < 2 ^ 31 - 1 -> 0 < k -> Z.of_nat n * k < 2 ^ 31 ->
  0 < t -> t + Z.of_nat n * k < 2 ^ 32 ->
  (n < fuel)%nat ->
  episodes (firing fuel st) = n
  /\ rearms (firing fuel st) = map (fun i => t + Z.of_nat i * k) (seq 1 n)
  /\ List.length (firing fuel st) = S n.
Proof.
  intros R Hn Hk Hnk Ht Htn Hf.
  rewrite (firing_schedule t k n st fuel) by assumption.
  set (f := fun i : nat => t + Z.of_nat i * k).
  assert (E1 : forall l : list nat,
             filter fst (map (fun i => (true, f i)) l)
             = map (fun i => (true, f i)) l).
  { induction l as [|i l IH]; [reflexivity|].
    cbn [map filter fst]. rewrite IH. reflexivity. }
  assert (E2 : forall l : list nat,
             filter (fun v => negb (v =? 0))
               (map snd (map (fun i => (true, f i)) l))
             = map f l).
  { induction l as [|i l IH]; [reflexivity|].
    cbn [map filter snd].
    assert (NZ : (f i =? 0) = false) by (apply Z.eqb_neq; unfold f; nia).
    rewrite NZ. cbn [negb]. rewrite IH. reflexivity. }
  unfold episodes, rearms.
  rewrite filter_app, map_app, filter_app, E1, E2.
  cbn [filter fst snd map Z.eqb negb].
  rewrite !length_app, !length_map, length_seq, ?app_nil_r.
  cbn [List.length]. repeat split; try reflexivity; lia.
Qed.

(** C1 (the code differs from the claim). An alarm with repeat count 0
    and interval 5 s, enabled and armed for time 1000: its only match
    event plays nothing and disarms, so there is no playback episode where
    the claim counts [n + 1 = 1]. With repeat count 5 the run has six match
    events, re-armed to [1000 + i*5] for [i = 1..5] as claimed and not
    re-armed after the fifth, but only five of them play. *)
Theorem repeat_run_plays_n_times :
  firing 10 (armed 1000 0 5) = [(false, 0)]
  /\ episodes (firing 10 (armed 1000 0 5)) = 0%nat
  /\ episodes (firing 10 (armed 1000 5 5)) = 5%nat
  /\ rearms (firing 10 (armed 1000 5 5)) = [1005; 1010; 1015; 1020; 1025]
  /\ List.length (firing 10 (armed 1000 5 5)) = 6%nat.
Proof. vm_compute. repeat split. Qed.

(** ** Set-repeat-policy (C2) *)

(** C2 as amended. A typed count that is negative ends the command
    there: the refusal is sent, the interval is not asked for and its
    line is not read, and the state is as it was but for the bytes read
    and the messages sent. A typed count that is not negative is stored
    at once; when the interval typed after it is not positive, the
    refusal is sent and the state is as it was but for the stored count,
    the bytes read and the messages sent: the interval setting is as
    before. (The numbers typed are within the range of [int].) *)
Theorem setAlarmRepeat_invalid (st : state) (count rest : list ascii) :
  typed_line count -> fits_int count ->
  uart_rx st = count ++ LF :: rest ->
  (decimal_value count < 0 ->
   exists st',
     setAlarmRepeat st = Some st'
     /\ alarmRepeatCount st' = alarmRepeatCount st
     /\ alarmIntervalSeconds st' = alarmIntervalSeconds st
     /\ uart_rx st' = rest
     /\ added st st'
        = [EvSend MsgRepeatCountPrompt; EvSend MsgRepeatCountInvalid]
     /\ io_only st st')
  /\ (0 <= decimal_value count ->
      forall interval rest' : list ascii,
      typed_line interval -> fits_int interval ->
      rest = interval ++ LF :: rest' ->
      decimal_value interval <= 0 ->
      exists st',
        setAlarmRepeat st = Some st'
        /\ alarmRepeatCount st' = decimal_value count
        /\ alarmIntervalSeconds st' = alarmIntervalSeconds st
        /\ uart_rx st' = rest'
        /\ added st st'
           = [EvSend MsgRepeatCountPrompt; EvSend MsgRepeatIntervalPrompt;
              EvSend MsgIntervalInvalid]
        /\ io_only (set_alarmRepeatCount (decimal_value count) st) st').
Proof.
  intros Tc Fc E.
  unfold setAlarmRepeat.
  rewrite (UARTReceiveStr_line _ count rest Tc) by (st_simpl; exact E).
  rewrite (cstr_plain count) by apply Tc.
  unfold atoi. rewrite (int32_small (decimal_value count)) by exact Fc.
  split.
  - intros Neg. apply Z.leb_gt in Neg. rewrite Neg.
    eexists. split; [reflexivity|]. st_simpl.
    split; [reflexivity|]. split; [reflexivity|]. split; [reflexivity|].
    split.
    + apply added_app. st_simpl. rewrite <- app_assoc. reflexivity.
    + exists [EvSend MsgRepeatCountPrompt; EvSend MsgRepeatCountInvalid].
      cbv beta delta [UARTSendStr emit].
      apply set_trace_ext;
        [st_simpl; rewrite <- ?app_assoc; reflexivity | reflexivity].
  - intros Ok interval rest' Ti Fi -> Bad.
    apply Z.leb_le in Ok. rewrite Ok.
    rewrite (UARTReceiveStr_line _ interval rest' Ti)
      by (st_simpl; reflexivity).
    rewrite (cstr_plain interval) by apply Ti.
    rewrite (int32_small (decimal_value interval)) by exact Fi.
    apply Z.ltb_ge in Bad. rewrite Bad.
    eexists. split; [reflexivity|]. st_simpl.
    split; [reflexivity|]. split; [reflexivity|]. split; [reflexivity|].
    split.
    + apply added_app. st_simpl. rewrite <- !app_assoc. reflexivity.
    + exists [EvSend MsgRepeatCountPrompt; EvSend MsgRepeatIntervalPrompt;
              EvSend MsgIntervalInvalid].
      cbv beta delta [UARTSendStr emit].
      apply set_trace_ext;
        [st_simpl; rewrite <- ?app_assoc; reflexivity | reflexivity].
Qed.

Lemma setAlarmRepeat_invalid_witness :
  (exists st',
     setAlarmRepeat (entered ["3"; "0"]%string initial_state) = Some st'
     /\ alarmRepeatCount st' = 3
     /\ alarmIntervalSeconds st' = 5
     /\ uart_rx st' = [])
  /\ (exists st',
        setAlarmRepeat (entered ["-1"; "9"]%string initial_state) = Some st'
        /\ alarmRepeatCount st' = 5
        /\ alarmIntervalSeconds st' = 5
        /\ uart_rx st' = ["9"%char; LF]).
Proof.
  assert (T : forall l : list ascii,
             forallb plain l = true -> l <> [] ->
             (List.length l < 99)%nat -> typed_line l).
  { intros l P N L. split; [exact P|]. split; [exact N|].
    unfold BUFFER_SIZE. lia. }
  split.
  - destruct (setAlarmRepeat_invalid (entered ["3"; "0"]%string initial_state)
                ["3"%char] ["0"%char; LF]) as [_ H].
    + apply T; [reflexivity | discriminate | cbn; lia].
    + vm_compute. split; discriminate || reflexivity.
    + reflexivity.
    + destruct (H ltac:(vm_compute; discriminate) ["0"%char] [])
        as (st' & E & C & I & R & _).
      * apply T; [reflexivity | discriminate | cbn; lia].
      * vm_compute. split; discriminate || reflexivity.
      * reflexivity.
      * vm_compute. discriminate.
      * exists st'. split; [exact E|]. split; [exact C|].
        split; [exact I | exact R].
  - destruct (setAlarmRepeat_invalid (entered ["-1"; "9"]%string initial_state)
                ["-"; "1"]%char ["9"%char; LF]) as [H _].
    + apply T; [reflexivity | discriminate | cbn; lia].
    + vm_compute. split; discriminate || reflexivity.
    + reflexivity.
    + destruct (H ltac:(vm_compute; reflexivity))
        as (st' & E & C & I & R & _).
      exists st'. split; [exact E|]. split; [exact C|].
      split; [exact I | exact R].
Defined.

(** C2 as stated fails: count 3 is valid, interval 0 is not, and the
    repeat count has changed from 5 to 3. *)
Lemma setAlarmRepeat_partial_update :
  exists st',
    setAlarmRepeat (entered ["3"; "0"]%string initial_state) = Some st'
    /\ atoi ["0"%char] <= 0
    /\ alarmRepeatCount initial_state = 5
    /\ alarmRepeatCount st' = 3.
Proof.
  eexists. split; [vm_compute; reflexivity|].
  split; [vm_compute; discriminate|]. split; reflexivity.
Qed.

(** ** Playback inside the handler (C3) *)

(** Whenever the handler re-arms, with a valid melody, it returns with the
    melody finished and the light sequence stopped after 11 of its 20
    steps, the light cursor still marked active. *)
Lemma handler_stops_lights_early (st : state) :
  alarmEnabled st = true ->
  currentRepeatCount st < int32 (alarmRepeatCount st + 1) ->
  1 <= selectedMelodyID st <= 3 ->
  melodyIndex (match_event st) = TOTAL_NOTES
  /\ isPlayingMelody (match_event st) = false
  /\ lightIndex (match_event st) = 11
  /\ isShowingLights (match_event st) = true.
Proof.
  intros En Lt V.
  destruct (match_event_rearm st En Lt V) as (evs & pdor & E).
  rewrite E. repeat split.
Qed.

(** C3 (the code differs from the claim). The first match event of an
    enabled alarm (repeat count 5, interval 5 s, armed for time 1000): the
    handler returns with all 10 tone steps done, but with the light
    sequence at step 11 of 20 and its cursor still active; it has written
    the LED port 12 times, 11 light steps and the final all-off. *)
Theorem handler_cuts_light_sequence :
  let st := armed 1000 5 5 in
  let st' := match_event st in
  melodyIndex st' = TOTAL_NOTES
  /\ isPlayingMelody st' = false
  /\ count_events is_speaker_on (added st st') = 10%nat
  /\ lightIndex st' = 11
  /\ lightIndex st' < TOTAL_LIGHT_STATES
  /\ isShowingLights st' = true
  /\ count_events is_leds (added st st') = 12%nat.
Proof. vm_compute. repeat split. Qed.

(** ** The cursors (C4) *)

Lemma tone_steps (id : Z) (st : state) (m : nat) :
  (m <= 10)%nat ->
  melodyIndex (Nat.iter m playNextNote (startMelody id st)) = Z.of_nat m
  /\ isPlayingMelody (Nat.iter m playNextNote (startMelody id st)) = true.
Proof.
  induction m as [|m IH]; intros Le.
  - split; reflexivity.
  - destruct IH as [I P]; [lia|].
    rewrite Nat.iter_succ.
    rewrite playNextNote_step by (rewrite I; unfold TOTAL_NOTES; lia).
    st_simpl. rewrite I, P, int32_small by lia.
    split; [lia | reflexivity].
Qed.

Lemma light_steps (id : Z) (st : state) (m : nat) :
  (m <= 20)%nat ->
  lightIndex (Nat.iter m updateLights (startLightEffect id st)) = Z.of_nat m
  /\ isShowingLights (Nat.iter m updateLights (startLightEffect id st)) = true.
Proof.
  induction m as [|m IH]; intros Le.
  - split; reflexivity.
  - destruct IH as [I P]; [lia|].
    rewrite Nat.iter_succ.
    rewrite updateLights_step by (rewrite I; unfold TOTAL_LIGHT_STATES; lia).
    st_simpl. rewrite I, P, int32_small by lia.
    split; [lia | reflexivity].
Qed.

(** C4 as amended. After [startMelody] and 10 calls of [playNextNote] the
    tone index is 10 and the cursor is still marked active; the 11th call
    emits nothing and is the one that marks it inactive; calls after that
    change nothing. The same for the lights with 20 and 21. *)
Theorem cursor_inactive_one_step_late (id : Z) (st : state) :
  let t10 := Nat.iter 10 playNextNote (startMelody id st) in
  let t11 := playNextNote t10 in
  let l20 := Nat.iter 20 updateLights (startLightEffect id st) in
  let l21 := updateLights l20 in
  (melodyIndex t10 = 10 /\ isPlayingMelody t10 = true)
  /\ (isPlayingMelody t11 = false /\ trace t11 = trace t10
      /\ playNextNote t11 = t11)
  /\ (lightIndex l20 = 20 /\ isShowingLights l20 = true)
  /\ (isShowingLights l21 = false /\ trace l21 = trace l20
      /\ PTB_PDOR l21 = PTB_PDOR l20 /\ updateLights l21 = l21).
Proof.
  intros t10 t11 l20 l21.
  destruct (tone_steps id st 10) as [TI TP]; [lia|].
  destruct (light_steps id st 20) as [LI LP]; [lia|].
  fold t10 in TI, TP. fold l20 in LI, LP.
  assert (T11 : t11 = set_isPlayingMelody false t10).
  { apply playNextNote_done. rewrite TI. unfold TOTAL_NOTES. lia. }
  assert (L21 : l21 = set_isShowingLights false l20).
  { apply updateLights_done. rewrite LI. unfold TOTAL_LIGHT_STATES. lia. }
  split; [split; assumption|].
  split.
  { rewrite T11. repeat split.
    rewrite playNextNote_done; [reflexivity|].
    st_simpl. rewrite TI. unfold TOTAL_NOTES. lia. }
  split; [split; assumption|].
  rewrite L21. repeat split.
  rewrite updateLights_done; [reflexivity|].
  st_simpl. rewrite LI. unfold TOTAL_LIGHT_STATES. lia.
Qed.

(** C4 as stated fails: ten tone steps, and twenty light steps, after the
    start the cursors are still marked active. *)
Lemma cursor_active_after_last_step :
  isPlayingMelody (Nat.iter 10 playNextNote (startMelody 1 initial_state))
  = true
  /\ isShowingLights
       (Nat.iter 20 updateLights (startLightEffect 1 initial_state))
     = true.
Proof. split; vm_compute; reflexivity. Qed.

(** ** Disabling the alarm (C5) *)

(** C5. With the alarm disabled, a match event clears the match register
    and puts the repeat counter back to its initial value, whatever the
    counter was; the cursors are untouched, and the only thing the handler
    emits is the menu. *)
Theorem disabled_match_clears (st : state) :
  alarmEnabled st = false ->
  let st' := match_event st in
  RTC_TAR st' = 0
  /\ currentRepeatCount st' = currentRepeatCount initial_state
  /\ added st st' = [EvSend MsgMenu]
  /\ played st st' = false
  /\ isPlayingMelody st' = isPlayingMelody st
  /\ isShowingLights st' = isShowingLights st
  /\ melodyIndex st' = melodyIndex st
  /\ lightIndex st' = lightIndex st
  /\ PTB_PDOR st' = PTB_PDOR st.
Proof.
  intros En st'. unfold st'.
  rewrite (match_event_disabled st En).
  assert (A : added st
                (displayMenu
                   (set_RTC_TAR 0 (set_currentRepeatCount 1 (raised st))))
              = [EvSend MsgMenu]) by (apply added_app; trace_eq).
  unfold played. rewrite A.
  repeat split.
Qed.

Lemma disabled_match_clears_witness :
  let st := set_alarmEnabled false (match_event (match_event (armed 1000 5 5))) in
  currentRepeatCount st = 3
  /\ RTC_TAR st = 1010
  /\ RTC_TAR (match_event st) = 0
  /\ currentRepeatCount (match_event st) = 1
  /\ played st (match_event st) = false.
Proof.
  intros st.
  split; [vm_compute; reflexivity|].
  split; [vm_compute; reflexivity|].
  destruct (disabled_match_clears st eq_refl) as (T & C & _ & P & _).
  split; [exact T|]. split; [exact C | exact P].
Defined.

(** ** Date and time validation (C6, C10) *)

Lemma fields_in_range_spec (d : datetime) :
  fields_in_range d = true <->
  1900 < dt_year d
  /\ 1 <= dt_month d <= 12
  /\ 1 <= dt_day d <= 31
  /\ 0 <= dt_hour d < 24
  /\ 0 <= dt_min d < 60
  /\ 0 <= dt_sec d < 60.
Proof.
  unfold fields_in_range.
  rewrite !andb_true_iff, !Z.ltb_lt, !Z.leb_le. lia.
Qed.

(** C6. Month 13 is a range error, 2024-02-29 23:59:59 is accepted, and
    "notadate" is a format error: no field is converted, and the message
    is the one of the failed parse. *)
Theorem datetime_examples (st : state) :
  getUserTimeInput (entered ["2024-13-01 10:00:00"]%string st)
  = Some (None,
          UARTSendStr MsgTimeOutOfRange
            (UARTSendStr MsgTimePrompt (set_uart_rx [] st)))
  /\ getUserTimeInput (entered ["2024-02-29 23:59:59"]%string st)
     = Some (Some (mkDatetime 2024 2 29 23 59 59),
             UARTSendStr MsgTimePrompt (set_uart_rx [] st))
  /\ getUserTimeInput (entered ["notadate"]%string st)
     = Some (None,
             UARTSendStr MsgTimeFormat
               (UARTSendStr MsgTimePrompt (set_uart_rx [] st)))
  /\ sscanf datetime_format (list_ascii_of_string "notadate") = []
  /\ sscanf datetime_format (list_ascii_of_string "2024-13-01 10:00:00")
     = [2024; 13; 1; 10; 0; 0].
Proof. repeat split; vm_compute; reflexivity. Qed.

(** What [setClock] and [setAlarm] do with an accepted entry. *)
Lemma setClock_accepted (mktime : tm -> Z) (st st1 : state) (d : datetime) :
  getUserTimeInput st = Some (Some d, st1) ->
  setClock mktime st =
  Some (UARTSendStr MsgClockSet
          (set_RTC_SR
             (Z.lor (Z.land (RTC_SR st1) (uint32 (Z.lnot RTC_SR_TCE_MASK)))
                RTC_SR_TCE_MASK)
             (set_RTC_TSR
                (uint32
                   (mktime
                      (mkTm (dt_sec d) (dt_min d) (dt_hour d) (dt_day d)
                         (int32 (dt_month d - 1)) (int32 (dt_year d - 1900))
                         None)))
                st1))).
Proof. intros E. unfold setClock. rewrite E. reflexivity. Qed.

Lemma setAlarm_accepted (mktime : tm -> Z) (st st1 : state) (d : datetime) :
  getUserTimeInput st = Some (Some d, st1) ->
  let alarmTime :=
    mktime
      (mkTm (dt_sec d) (dt_min d) (dt_hour d) (dt_day d)
         (int32 (dt_month d - 1)) (int32 (dt_year d - 1900)) (Some (-1))) in
  setAlarm mktime st =
  Some (UARTSendStr MsgAlarmSet
          (set_RTC_SR
             (Z.lor (Z.land (RTC_SR st1) (uint32 (Z.lnot RTC_SR_TCE_MASK)))
                RTC_SR_TCE_MASK)
             (set_RTC_TAR (uint32 alarmTime)
                (set_globalAlarmTime alarmTime st1)))).
Proof. intros E. unfold setAlarm. rewrite E. reflexivity. Qed.

(** C10. The day is checked against 1..31 and against nothing else: of a
    typed line with six numbers, [getUserTimeInput] accepts the entry
    when the year is past 1900, the month in 1..12, the day in 1..31 and
    the time of day in range, whatever month and year the day goes with,
    and refuses it with the range message otherwise, so for a day below
    1 or above 31. 30 February 2023 and 31 April 2024 are accepted, and
    [setClock] and [setAlarm] hand them to [mktime] as they are; day 32
    and day 0 are refused. *)
Theorem day_checked_without_month (mktime : tm -> Z) (st : state) :
  (forall (line rest : list ascii) (y m d h mi s : Z),
     typed_line line ->
     sscanf datetime_format line = [y; m; d; h; mi; s] ->
     (1900 < y /\ 1 <= m <= 12 /\ 1 <= d <= 31
      /\ 0 <= h < 24 /\ 0 <= mi < 60 /\ 0 <= s < 60 ->
      getUserTimeInput (set_uart_rx (line ++ LF :: rest) st)
      = Some (Some (mkDatetime y m d h mi s),
              UARTSendStr MsgTimePrompt (set_uart_rx rest st)))
     /\ (~ (1900 < y /\ 1 <= m <= 12 /\ 1 <= d <= 31
            /\ 0 <= h < 24 /\ 0 <= mi < 60 /\ 0 <= s < 60) ->
         getUserTimeInput (set_uart_rx (line ++ LF :: rest) st)
         = Some (None,
                 UARTSendStr MsgTimeOutOfRange
                   (UARTSendStr MsgTimePrompt (set_uart_rx rest st))))
     /\ (d < 1 \/ 31 < d ->
         getUserTimeInput (set_uart_rx (line ++ LF :: rest) st)
         = Some (None,
                 UARTSendStr MsgTimeOutOfRange
                   (UARTSendStr MsgTimePrompt (set_uart_rx rest st)))))
  /\ (forall d : datetime,
       fields_in_range d = true <->
       1900 < dt_year d /\ 1 <= dt_month d <= 12 /\ 1 <= dt_day d <= 31
       /\ 0 <= dt_hour d < 24 /\ 0 <= dt_min d < 60 /\ 0 <= dt_sec d < 60)
  /\ getUserTimeInput (entered ["2023-02-30 00:00:00"]%string st)
     = Some (Some (mkDatetime 2023 2 30 0 0 0),
             UARTSendStr MsgTimePrompt (set_uart_rx [] st))
  /\ getUserTimeInput (entered ["2024-04-31 00:00:00"]%string st)
     = Some (Some (mkDatetime 2024 4 31 0 0 0),
             UARTSendStr MsgTimePrompt (set_uart_rx [] st))
  /\ getUserTimeInput (entered ["2023-02-32 00:00:00"]%string st)
     = Some (None,
             UARTSendStr MsgTimeOutOfRange
               (UARTSendStr MsgTimePrompt (set_uart_rx [] st)))
  /\ getUserTimeInput (entered ["2023-02-00 00:00:00"]%string st)
     = Some (None,
             UARTSendStr MsgTimeOutOfRange
               (UARTSendStr MsgTimePrompt (set_uart_rx [] st)))
  /\ (exists st',
        setClock mktime (entered ["2023-02-30 00:00:00"]%string st) = Some st'
        /\ RTC_TSR st' = uint32 (mktime (mkTm 0 0 0 30 1 123 None)))
  /\ (exists st',
        setAlarm mktime (entered ["2024-04-31 00:00:00"]%string st) = Some st'
        /\ globalAlarmTime st' = mktime (mkTm 0 0 0 31 3 124 (Some (-1)))
        /\ RTC_TAR st' = uint32 (mktime (mkTm 0 0 0 31 3 124 (Some (-1))))).
Proof.
  assert (G1 : getUserTimeInput (entered ["2023-02-30 00:00:00"]%string st)
               = Some (Some (mkDatetime 2023 2 30 0 0 0),
                       UARTSendStr MsgTimePrompt (set_uart_rx [] st)))
    by (vm_compute; reflexivity).
  assert (G2 : getUserTimeInput (entered ["2024-04-31 00:00:00"]%string st)
               = Some (Some (mkDatetime 2024 4 31 0 0 0),
                       UARTSendStr MsgTimePrompt (set_uart_rx [] st)))
    by (vm_compute; reflexivity).
  assert (General :
            forall (line rest : list ascii) (y m d h mi s : Z),
            typed_line line ->
            sscanf datetime_format line = [y; m; d; h; mi; s] ->
            getUserTimeInput (set_uart_rx (line ++ LF :: rest) st)
            = if fields_in_range (mkDatetime y m d h mi s)
              then Some (Some (mkDatetime y m d h mi s),
                         UARTSendStr MsgTimePrompt (set_uart_rx rest st))
              else Some (None,
                         UARTSendStr MsgTimeOutOfRange
                           (UARTSendStr MsgTimePrompt (set_uart_rx rest st)))).
  { intros line rest y m d h mi s T S. unfold getUserTimeInput.
    rewrite (UARTReceiveStr_line _ line rest T) by reflexivity.
    rewrite (cstr_plain line) by apply T.
    rewrite S. reflexivity. }
  split.
  { intros line rest y m d h mi s T S.
    rewrite (General line rest y m d h mi s T S).
    pose proof (fields_in_range_spec (mkDatetime y m d h mi s)) as R.
    cbn [dt_year dt_month dt_day dt_hour dt_min dt_sec] in R.
    destruct (fields_in_range (mkDatetime y m d h mi s)).
    - split; [reflexivity|]. split.
      + intros N. contradiction N. apply R. reflexivity.
      + intros D. assert (1 <= d <= 31) by (apply R; reflexivity). lia.
    - split; [|split; reflexivity].
      intros In. apply R in In. discriminate In. }
  split; [exact fields_in_range_spec|].
  split; [exact G1|].
  split; [exact G2|].
  split; [vm_compute; reflexivity|].
  split; [vm_compute; reflexivity|].
  split.
  - eexists. split; [apply (setClock_accepted mktime _ _ _ G1)|].
    reflexivity.
  - eexists. split; [apply (setAlarm_accepted mktime _ _ _ G2)|].
    split; reflexivity.
Qed.

(** ** Light effect 2 (C8) *)

(** C8 (the code differs from the claim). Effect 2 writes [~(1 << i)] to
    the port, and the LEDs are on lines 2..5: at step 0, and at every step
    but 2, 3, 4 and 5, no LED is lit, and nothing cycles. Effect 3, next
    to it, takes the index modulo 4 and lights exactly one LED at every
    step. *)
Theorem light_effect_2_dark_steps (st : state) :
  lit_leds (PTB_PDOR (updateLights (startLightEffect 2 st))) = []
  /\ map (fun s => lit_leds (PTB_PDOR s))
       (steps 20 updateLights (startLightEffect 2 st))
     = [ []; []; [LED_D12]; [LED_D11]; [LED_D10]; [LED_D9];
         []; []; []; []; []; []; []; []; []; []; []; []; []; [] ]
  /\ map (fun s => lit_leds (PTB_PDOR s))
       (steps 20 updateLights (startLightEffect 3 st))
     = [ [LED_D12]; [LED_D11]; [LED_D10]; [LED_D9];
         [LED_D12]; [LED_D11]; [LED_D10]; [LED_D9];
         [LED_D12]; [LED_D11]; [LED_D10]; [LED_D9];
         [LED_D12]; [LED_D11]; [LED_D10]; [LED_D9];
         [LED_D12]; [LED_D11]; [LED_D10]; [LED_D9] ].
Proof. repeat split; vm_compute; reflexivity. Qed.

(** ** The command reader (C7) *)

(** The part of C7 that holds: the bytes "7", Enter take the reader from
    IDLE through READING_INPUT to PROCESSING_INPUT with "7" in the buffer;
    the poll after that dispatches command 7 and returns to IDLE. *)
Lemma reader_reads_a_line (mktime : tm -> Z) :
  let st := entered ["7"]%string initial_state in
  option_map interfaceState (poll mktime 1 st) = Some READING_INPUT
  /\ option_map interfaceState (poll mktime 2 st) = Some READING_INPUT
  /\ option_map interfaceState (poll mktime 3 st) = Some PROCESSING_INPUT
  /\ option_map (fun s => cstr (inputBuffer s)) (poll mktime 3 st)
     = Some ["7"%char]
  /\ option_map interfaceState (poll mktime 4 st) = Some IDLE.
Proof. repeat split; vm_compute; reflexivity. Qed.

(** C7 (the code differs from the claim). In READING_INPUT with an empty
    buffer, the bytes "a", backspace leave two characters in the buffer,
    the backspace among them, and the next character goes to position 2.
    The blocking reader [UARTReceiveStr], given the same bytes, does erase:
    the line it returns has only the "b". *)
Theorem reader_keeps_backspace (mktime : tm -> Z) :
  let st :=
    set_uart_rx ["a"%char; BS; "b"%char]
      (set_interfaceState READING_INPUT initial_state) in
  (exists st',
     poll mktime 2 st = Some st'
     /\ interfaceState st' = READING_INPUT
     /\ inputIndex st' = 2
     /\ firstn 2 (inputBuffer st') = ["a"%char; BS])
  /\ (exists st',
        poll mktime 3 st = Some st'
        /\ inputIndex st' = 3
        /\ firstn 3 (inputBuffer st') = ["a"%char; BS; "b"%char])
  /\ UARTReceiveStr_loop BUFFER_SIZE [] ["a"%char; BS; "b"%char; LF]
     = Some (false, ["b"%char], []).
Proof.
  intros st.
  split; [eexists; split; [vm_compute; reflexivity | repeat split]|].
  split; [eexists; split; [vm_compute; reflexivity | repeat split]|].
  vm_compute. reflexivity.
Qed.

(** * More of the program *)

(** ** The blocking line reader *)

Lemma removelast_snoc (l : list ascii) (c : ascii) : removelast (l ++ [c]) = l.
Proof. apply removelast_last. Qed.

Lemma removelast_length_le (l : list ascii) :
  (List.length (removelast l) <= List.length l)%nat.
Proof.
  induction l as [|a [|b l] IH]; cbn [removelast List.length] in *; lia.
Qed.

Lemma plain_inv (c : ascii) :
  plain c = true ->
  Ascii.eqb c LF = false /\ Ascii.eqb c CR = false
  /\ Ascii.eqb c BS = false /\ Ascii.eqb c DEL = false
  /\ Ascii.eqb c NUL = false.
Proof.
  unfold plain. rewrite !andb_true_iff, !negb_true_iff. tauto.
Qed.

(** Ordinary characters within the capacity are taken into the buffer one
    by one. *)
Lemma UARTReceiveStr_loop_plain (bufferSize : Z) (l : list ascii) :
  forall acc rx : list ascii,
  forallb plain l = true ->
  Z.of_nat (List.length (acc ++ l)) < bufferSize - 1 ->
  UARTReceiveStr_loop bufferSize acc (l ++ rx)
  = UARTReceiveStr_loop bufferSize (acc ++ l) rx.
Proof.
  induction l as [|c l IH]; intros acc rx P Len.
  - rewrite app_nil_r. reflexivity.
  - cbn [forallb] in P. apply andb_true_iff in P as [Pc Pl].
    destruct (plain_inv c Pc) as (E1 & E2 & E3 & E4 & _).
    rewrite length_app in Len. cbn [List.length] in Len.
    cbn [app]. destruct rx as [|r rx'] eqn:Erx.
    + cbn [UARTReceiveStr_loop]. rewrite E1, E2, E3, E4. cbn [orb].
      replace (Z.of_nat (List.length acc) <? bufferSize - 1) with true
        by (symmetry; apply Z.ltb_lt; lia).
      replace (Z.of_nat (List.length (acc ++ [c])) <? bufferSize - 1) with true
        by (symmetry; apply Z.ltb_lt; rewrite length_app;
            cbn [List.length]; lia).
      rewrite (IH (acc ++ [c]) [] Pl)
        by (rewrite <- app_assoc, length_app; cbn [app List.length]; lia).
      rewrite <- app_assoc. reflexivity.
    + cbn [UARTReceiveStr_loop]. rewrite E1, E2, E3, E4. cbn [orb].
      replace (Z.of_nat (List.length acc) <? bufferSize - 1) with true
        by (symmetry; apply Z.ltb_lt; lia).
      replace (Z.of_nat (List.length (acc ++ [c])) <? bufferSize - 1) with true
        by (symmetry; apply Z.ltb_lt; rewrite length_app;
            cbn [List.length]; lia).
      rewrite (IH (acc ++ [c]) (r :: rx') Pl)
        by (rewrite <- app_assoc, length_app; cbn [app List.length]; lia).
      rewrite <- app_assoc. reflexivity.
Qed.

Lemma UARTReceiveStr_loop_bound (bufferSize : Z) (rx : list ascii) :
  forall (acc line rest : list ascii) (r : bool),
  Z.of_nat (List.length acc) <= bufferSize - 1 ->
  UARTReceiveStr_loop bufferSize acc rx = Some (r, line, rest) ->
  Z.of_nat (List.length line) <= bufferSize - 1
  /\ (r = true -> line = [])
  /\ exists taken, rx = taken ++ rest /\ taken <> [].
Proof.
  induction rx as [|c rx IH]; intros acc line rest r Len E;
    cbn [UARTReceiveStr_loop] in E; [discriminate|].
  destruct (Ascii.eqb c LF || Ascii.eqb c CR).
  { destruct (Z.of_nat (List.length acc) =? 0);
      injection E as <- <- <-;
      (split; [cbn [List.length]; lia|]);
      (split; [intros; try discriminate; reflexivity|]);
      exists [c]; (split; [reflexivity | discriminate]). }
  match type of E with
  | (if Z.of_nat (List.length ?l') <? _ then _ else _) = _ =>
      assert (Len' : Z.of_nat (List.length l') <= bufferSize - 1);
      [|remember l' as acc' eqn:Eacc; clear Eacc]
  end.
  { destruct (Ascii.eqb c BS || Ascii.eqb c DEL).
    - destruct (0 <? Z.of_nat (List.length acc)); [|exact Len].
      pose proof (removelast_length_le acc). lia.
    - destruct (Z.ltb_spec (Z.of_nat (List.length acc)) (bufferSize - 1));
        [|exact Len].
      rewrite length_app. cbn [List.length]. lia. }
  destruct (Z.of_nat (List.length acc') <? bufferSize - 1).
  - destruct (IH acc' line rest r Len' E) as (B & F & taken & -> & _).
    split; [exact B|]. split; [exact F|].
    exists (c :: taken). split; [reflexivity | discriminate].
  - injection E as <- <- <-.
    split; [exact Len'|]. split; [discriminate|].
    exists [c]. split; [reflexivity | discriminate].
Qed.

(** X1. Whatever arrives, the line [UARTReceiveStr] returns fits the
    buffer with room for the terminating NUL; the result is [true] only
    for an empty line; the call takes at least one byte from the front of
    the receiver and changes nothing else. *)
Theorem UARTReceiveStr_fits
  (bufferSize : Z) (st st' : state) (r : bool) (line : list ascii) :
  1 <= bufferSize ->
  UARTReceiveStr bufferSize st = Some (r, line, st') ->
  Z.of_nat (List.length line) < bufferSize
  /\ (r = true -> line = [])
  /\ st' = set_uart_rx (uart_rx st') st
  /\ exists taken, uart_rx st = taken ++ uart_rx st' /\ taken <> [].
Proof.
  intros Hb E. unfold UARTReceiveStr in E.
  destruct (UARTReceiveStr_loop bufferSize [] (uart_rx st))
    as [[[r' line'] rest]|] eqn:L; [|discriminate].
  injection E as <- <- <-.
  destruct (UARTReceiveStr_loop_bound bufferSize (uart_rx st) [] line' rest r')
    as (B & F & T); [cbn [List.length]; lia | exact L |].
  split; [lia|]. split; [exact F|]. split; [reflexivity | exact T].
Qed.

Lemma UARTReceiveStr_fits_witness :
  exists st',
    UARTReceiveStr BUFFER_SIZE (entered ["12"; "x"]%string initial_state)
    = Some (false, ["1"; "2"]%char, st')
    /\ uart_rx st' = ["x"%char; LF].
Proof.
  eexists. split; [vm_compute; reflexivity|].
  destruct (UARTReceiveStr_fits BUFFER_SIZE
              (entered ["12"; "x"]%string initial_state)
              (set_uart_rx ["x"%char; LF]
                 (entered ["12"; "x"]%string initial_state))
              false ["1"; "2"]%char) as (_ & _ & E & _).
  - vm_compute. discriminate.
  - vm_compute. reflexivity.
  - reflexivity.
Defined.

(** X2. Erasing in [UARTReceiveStr]: an ordinary character followed by
    backspace or delete leaves the line as if neither had been typed, at
    any point of a line that still has room; on an empty line the erase
    code alone does nothing. *)
Theorem UARTReceiveStr_erase
  (bufferSize : Z) (st : state) (l rx : list ascii) (c e : ascii) :
  forallb plain l = true ->
  plain c = true ->
  e = BS \/ e = DEL ->
  Z.of_nat (List.length l) + 1 < bufferSize - 1 ->
  UARTReceiveStr bufferSize (set_uart_rx (l ++ c :: e :: rx) st)
  = UARTReceiveStr bufferSize (set_uart_rx (l ++ rx) st)
  /\ UARTReceiveStr bufferSize (set_uart_rx (e :: rx) st)
     = UARTReceiveStr bufferSize (set_uart_rx rx st).
Proof.
  intros Pl Pc He Len.
  assert (Ee : Ascii.eqb e LF || Ascii.eqb e CR = false
               /\ Ascii.eqb e BS || Ascii.eqb e DEL = true)
    by (destruct He as [-> | ->]; split; reflexivity).
  destruct Ee as [Ee1 Ee2].
  assert (Step : forall acc,
             Z.of_nat (List.length acc) < bufferSize - 1 ->
             UARTReceiveStr_loop bufferSize acc (e :: rx)
             = UARTReceiveStr_loop bufferSize (removelast acc) rx).
  { intros acc La. cbn [UARTReceiveStr_loop]. rewrite Ee1, Ee2.
    pose proof (removelast_length_le acc) as R.
    destruct (Z.ltb_spec 0 (Z.of_nat (List.length acc))) as [Pos|Zero].
    - replace (Z.of_nat (List.length (removelast acc)) <? bufferSize - 1)
        with true by (symmetry; apply Z.ltb_lt; lia).
      destruct rx; reflexivity.
    - assert (acc = []) by (destruct acc; [reflexivity | cbn in Zero; lia]).
      subst acc. cbn [removelast List.length].
      replace (Z.of_nat 0 <? bufferSize - 1)
        with true by (symmetry; apply Z.ltb_lt; cbn in *; lia).
      destruct rx; reflexivity. }
  unfold UARTReceiveStr. st_simpl. split.
  - rewrite (UARTReceiveStr_loop_plain bufferSize l [] (c :: e :: rx) Pl)
      by (cbn [app]; lia).
    rewrite (UARTReceiveStr_loop_plain bufferSize l [] rx Pl)
      by (cbn [app]; lia).
    cbn [app].
    change (c :: e :: rx) with ([c] ++ e :: rx).
    rewrite (UARTReceiveStr_loop_plain bufferSize [c] l (e :: rx))
      by (cbn [forallb]; try rewrite Pc; try reflexivity;
          rewrite length_app; cbn [List.length]; lia).
    rewrite Step by (rewrite length_app; cbn [List.length]; lia).
    rewrite removelast_snoc. reflexivity.
  - rewrite (Step []) by (cbn [List.length]; lia). reflexivity.
Qed.

Lemma UARTReceiveStr_erase_witness :
  UARTReceiveStr BUFFER_SIZE
    (set_uart_rx ["4"; "2"; BS; "7"; LF]%char initial_state)
  = Some (false, ["4"; "7"]%char, set_uart_rx [] initial_state).
Proof.
  destruct (UARTReceiveStr_erase BUFFER_SIZE initial_state
              ["4"%char] ["7"%char; LF] "2"%char BS) as [E _].
  - reflexivity.
  - reflexivity.
  - left. reflexivity.
  - vm_compute. reflexivity.
  - cbn [app] in E. rewrite E. vm_compute. reflexivity.
Defined.

(** X3. A line that is not ended blocks: ordinary characters that do not
    fill the buffer, with nothing after them, leave [UARTReceiveStr]
    waiting for the receiver. *)
Theorem UARTReceiveStr_waits (bufferSize : Z) (st : state) :
  forallb plain (uart_rx st) = true ->
  Z.of_nat (List.length (uart_rx st)) < bufferSize - 1 ->
  UARTReceiveStr bufferSize st = None.
Proof.
  intros P Len. unfold UARTReceiveStr.
  rewrite <- (app_nil_r (uart_rx st)).
  rewrite (UARTReceiveStr_loop_plain bufferSize (uart_rx st) [] [] P)
    by (cbn [app]; exact Len).
  reflexivity.
Qed.

Lemma UARTReceiveStr_waits_witness :
  UARTReceiveStr BUFFER_SIZE (set_uart_rx ["1"; "2"]%char initial_state) = None.
Proof.
  apply UARTReceiveStr_waits.
  - reflexivity.
  - vm_compute. reflexivity.
Defined.

(** X4. A full buffer ends the call: once [bufferSize - 1] ordinary
    characters are in, [UARTReceiveStr] returns them without waiting for
    a line end, and what follows, the line end included, stays at the
    receiver for the next read. *)
Theorem UARTReceiveStr_full
  (bufferSize : Z) (st : state) (l rest : list ascii) :
  forallb plain l = true ->
  l <> [] ->
  Z.of_nat (List.length l) = bufferSize - 1 ->
  uart_rx st = l ++ rest ->
  UARTReceiveStr bufferSize st = Some (false, l, set_uart_rx rest st).
Proof.
  intros P NE Len E. unfold UARTReceiveStr. rewrite E.
  destruct (exists_last NE) as (l0 & c & ->).
  rewrite forallb_app in P. apply andb_true_iff in P as [P0 Pc].
  cbn [forallb] in Pc. rewrite andb_true_r in Pc.
  destruct (plain_inv c Pc) as (E1 & E2 & E3 & E4 & _).
  rewrite length_app in Len. cbn [List.length] in Len.
  rewrite <- app_assoc.
  rewrite (UARTReceiveStr_loop_plain bufferSize l0 [] ([c] ++ rest) P0)
    by (cbn [app]; lia).
  cbn [app UARTReceiveStr_loop]. rewrite E1, E2, E3, E4. cbn [orb].
  replace (Z.of_nat (List.length l0) <? bufferSize - 1) with true
    by (symmetry; apply Z.ltb_lt; lia).
  replace (Z.of_nat (List.length (l0 ++ [c])) <? bufferSize - 1) with false
    by (symmetry; apply Z.ltb_ge; rewrite length_app; cbn [List.length]; lia).
  reflexivity.
Qed.

Lemma UARTReceiveStr_full_witness :
  UARTReceiveStr 4 (set_uart_rx ["a"; "b"; "c"; "d"; LF]%char initial_state)
  = Some (false, ["a"; "b"; "c"]%char,
          set_uart_rx ["d"%char; LF] (set_uart_rx ["a"; "b"; "c"; "d"; LF]%char initial_state)).
Proof.
  apply UARTReceiveStr_full.
  - reflexivity.
  - discriminate.
  - reflexivity.
  - reflexivity.
Defined.

(** ** The command line reader *)

Lemma store_length (b : list ascii) (c : ascii) :
  forall i : nat, List.length (store b i c) = List.length b.
Proof.
  induction b as [|a b IH]; intros [|i]; cbn [store List.length];
    try rewrite IH; reflexivity.
Qed.

Lemma store_firstn (b : list ascii) (c : ascii) :
  forall i : nat,
  (i < List.length b)%nat -> firstn (S i) (store b i c) = firstn i b ++ [c].
Proof.
  induction b as [|a b IH]; intros [|i] L; cbn [List.length] in L; try lia.
  - reflexivity.
  - cbn [store]. rewrite !firstn_cons, IH by lia. reflexivity.
Qed.

Lemma cstr_store_NUL (b : list ascii) :
  forall i : nat,
  (i < List.length b)%nat ->
  forallb line_char (firstn i b) = true ->
  cstr (store b i NUL) = firstn i b.
Proof.
  induction b as [|a b IH]; intros [|i] L P; cbn [List.length] in L; try lia.
  - reflexivity.
  - rewrite firstn_cons in P. cbn [forallb] in P.
    apply andb_true_iff in P as [Pa P].
    unfold line_char in Pa. rewrite !andb_true_iff, !negb_true_iff in Pa.
    destruct Pa as [_ Pa].
    cbn [store cstr]. rewrite Pa, firstn_cons, IH by (lia || exact P).
    reflexivity.
Qed.

Lemma line_char_inv (c : ascii) :
  line_char c = true -> Ascii.eqb c LF = false /\ Ascii.eqb c CR = false.
Proof.
  unfold line_char. rewrite !andb_true_iff, !negb_true_iff. tauto.
Qed.

(** In READING_INPUT, one poll per character: the characters of a line go
    into the buffer from the index on. *)
Lemma reading_takes (mktime : tm -> Z) (l : list ascii) :
  forall (st : state) (rest : list ascii),
  interfaceState st = READING_INPUT ->
  0 <= inputIndex st ->
  inputIndex st + Z.of_nat (List.length l) <= 99 ->
  List.length (inputBuffer st) = 100%nat ->
  uart_rx st = l ++ rest ->
  forallb line_char l = true ->
  exists buf,
    poll mktime (List.length l) st
    = Some (set_inputIndex (inputIndex st + Z.of_nat (List.length l))
              (set_inputBuffer buf (set_uart_rx rest st)))
    /\ List.length buf = 100%nat
    /\ firstn (Z.to_nat (inputIndex st) + List.length l) buf
       = firstn (Z.to_nat (inputIndex st)) (inputBuffer st) ++ l.
Proof.
  induction l as [|c l IH]; intros st rest R I0 I1 B E P.
  - exists (inputBuffer st). cbn [poll List.length app] in *.
    rewrite Z.add_0_r, Nat.add_0_r, app_nil_r. subst rest.
    repeat split; try assumption. destruct st; reflexivity.
  - cbn [forallb] in P. apply andb_true_iff in P as [Pc Pl].
    destruct (line_char_inv c Pc) as [E1 E2].
    cbn [List.length] in I1. cbn [app] in E.
    cbn [poll List.length]. unfold checkUserInput at 1. rewrite R, E.
    rewrite E1, E2. cbn [negb andb]. st_simpl.
    rewrite !uint32_small by (unfold BUFFER_SIZE; lia).
    replace (inputIndex st <? BUFFER_SIZE - 1) with true
      by (symmetry; apply Z.ltb_lt; unfold BUFFER_SIZE; lia).
    rewrite int32_small by lia.
    match goal with |- context [poll mktime _ ?s] =>
      destruct (IH s rest) as (buf & Ep & Lb & Fb)
    end; st_simpl; try assumption; try reflexivity; try lia.
    { rewrite store_length. exact B. }
    exists buf. rewrite Ep. st_simpl.
    split.
    { replace (inputIndex st + 1 + Z.of_nat (List.length l))
        with (inputIndex st + Z.of_nat (S (List.length l))) by lia.
      reflexivity. }
    split; [exact Lb|].
    replace (Z.to_nat (inputIndex st) + S (List.length l))%nat
      with (Z.to_nat (inputIndex st + 1) + List.length l)%nat by lia.
    rewrite Fb.
    replace (Z.to_nat (inputIndex st + 1)) with (S (Z.to_nat (inputIndex st)))
      by lia.
    rewrite store_firstn by lia.
    rewrite <- app_assoc. reflexivity.
Qed.

(** The poll that ends a line: a line end, or any byte once the index has
    reached 99, is taken from the receiver and not stored; the buffer is
    terminated at the index and the line is ready. *)
Lemma reading_ends (mktime : tm -> Z) (st : state) (c : ascii) (rest : list ascii) :
  interfaceState st = READING_INPUT ->
  0 <= inputIndex st <= 99 ->
  uart_rx st = c :: rest ->
  c = LF \/ c = CR \/ inputIndex st = 99 ->
  checkUserInput mktime st
  = Some (set_interfaceState PROCESSING_INPUT
            (set_inputBuffer
               (store (inputBuffer st) (Z.to_nat (inputIndex st)) NUL)
               (set_uart_rx rest st))).
Proof.
  intros R I E H. unfold checkUserInput. rewrite R, E. st_simpl.
  replace (negb (Ascii.eqb c LF) && negb (Ascii.eqb c CR)
           && (uint32 (inputIndex st) <? uint32 (BUFFER_SIZE - 1)))
    with false; [reflexivity|].
  destruct H as [-> | [-> | H]]; try reflexivity.
  rewrite H. symmetry. apply andb_false_r.
Qed.

(** X5. From IDLE, a command line of up to 99 characters and its line end
    (line feed or carriage return) take one poll per byte and one more:
    the reader is then in PROCESSING_INPUT with exactly the line in the
    buffer, and what came after the line end is still at the receiver. *)
Theorem reader_assembles_line
  (mktime : tm -> Z) (st : state) (l rest : list ascii) (eol : ascii) :
  interfaceState st = IDLE ->
  List.length (inputBuffer st) = 100%nat ->
  forallb line_char l = true ->
  (List.length l <= 99)%nat ->
  eol = LF \/ eol = CR ->
  uart_rx st = l ++ eol :: rest ->
  exists st',
    poll mktime (S (S (List.length l))) st = Some st'
    /\ interfaceState st' = PROCESSING_INPUT
    /\ cstr (inputBuffer st') = l
    /\ uart_rx st' = rest.
Proof.
  intros I B P Len He E.
  replace (S (S (List.length l))) with (1 + (List.length l + 1))%nat by lia.
  assert (Split : forall a b s,
             poll mktime (a + b) s
             = match poll mktime a s with
               | Some s' => poll mktime b s'
               | None => None
               end).
  { induction a as [|a IHa]; intros b s; [reflexivity|].
    cbn [Nat.add poll]. destruct (checkUserInput mktime s); [apply IHa|].
    reflexivity. }
  rewrite Split. cbn [poll]. unfold checkUserInput at 1. rewrite I.
  destruct (uart_rx st) as [|a r] eqn:Erx; [destruct l; discriminate E|].
  rewrite E in Erx. clear E a r.
  rewrite Split.
  match goal with |- context [poll mktime (List.length l) ?s] =>
    destruct (reading_takes mktime l s (eol :: rest))
      as (buf & Ep & Lb & Fb)
  end; st_simpl; try assumption; try reflexivity; try lia.
  rewrite Ep. cbn [Nat.add Z.to_nat firstn app] in Fb.
  cbn [poll].
  rewrite reading_ends with (c := eol) (rest := rest);
    st_simpl; try reflexivity; try lia; [|tauto].
  eexists. split; [reflexivity|]. st_simpl.
  split; [reflexivity|]. split; [|reflexivity].
  rewrite Z.add_0_l, Nat2Z.id.
  rewrite cstr_store_NUL; rewrite ?Fb; try assumption; try lia.
  reflexivity.
Qed.

Lemma reader_assembles_line_witness :
  exists st',
    poll mktime_utc 4 (set_uart_rx ["1"; "2"; CR; "x"]%char initial_state)
    = Some st'
    /\ interfaceState st' = PROCESSING_INPUT
    /\ cstr (inputBuffer st') = ["1"; "2"]%char
    /\ uart_rx st' = ["x"%char].
Proof.
  apply (reader_assembles_line mktime_utc
           (set_uart_rx ["1"; "2"; CR; "x"]%char initial_state)
           ["1"; "2"]%char ["x"%char] CR).
  - reflexivity.
  - reflexivity.
  - reflexivity.
  - cbn [List.length]. lia.
  - right. reflexivity.
  - reflexivity.
Defined.

(** X6. A command line that does not end in time is cut: after 99
    characters the next byte, whatever it is, ends the line and is lost;
    the line handed on is the first 99 characters. *)
Theorem reader_cuts_long_line
  (mktime : tm -> Z) (st : state) (l rest : list ascii) (c : ascii) :
  interfaceState st = IDLE ->
  List.length (inputBuffer st) = 100%nat ->
  forallb line_char l = true ->
  List.length l = 99%nat ->
  uart_rx st = l ++ c :: rest ->
  exists st',
    poll mktime 101 st = Some st'
    /\ interfaceState st' = PROCESSING_INPUT
    /\ cstr (inputBuffer st') = l
    /\ uart_rx st' = rest.
Proof.
  intros I B P Len E.
  assert (Split : forall a b s,
             poll mktime (a + b) s
             = match poll mktime a s with
               | Some s' => poll mktime b s'
               | None => None
               end).
  { induction a as [|a IHa]; intros b s; [reflexivity|].
    cbn [Nat.add poll]. destruct (checkUserInput mktime s); [apply IHa|].
    reflexivity. }
  replace 101%nat with (1 + (List.length l + 1))%nat by lia.
  rewrite Split. cbn [poll]. unfold checkUserInput at 1. rewrite I.
  destruct (uart_rx st) as [|a r] eqn:Erx; [destruct l; discriminate E|].
  rewrite E in Erx. clear E a r.
  rewrite Split.
  match goal with |- context [poll mktime (List.length l) ?s] =>
    destruct (reading_takes mktime l s (c :: rest))
      as (buf & Ep & Lb & Fb)
  end; st_simpl; try assumption; try reflexivity; try lia.
  rewrite Ep. cbn [Nat.add Z.to_nat firstn app] in Fb.
  cbn [poll].
  rewrite reading_ends with (c := c) (rest := rest);
    st_simpl; try reflexivity; try lia.
  eexists. split; [reflexivity|]. st_simpl.
  split; [reflexivity|]. split; [|reflexivity].
  rewrite Z.add_0_l, Nat2Z.id.
  rewrite cstr_store_NUL; rewrite ?Fb; try assumption; try lia.
  reflexivity.
Qed.

Lemma reader_cuts_long_line_witness :
  exists st',
    poll mktime_utc 101
      (set_uart_rx (repeat "7"%char 99 ++ ["8"; "9"; LF]%char) initial_state)
    = Some st'
    /\ interfaceState st' = PROCESSING_INPUT
    /\ cstr (inputBuffer st') = repeat "7"%char 99
    /\ uart_rx st' = ["9"%char; LF].
Proof.
  apply (reader_cuts_long_line mktime_utc
           (set_uart_rx (repeat "7"%char 99 ++ ["8"; "9"; LF]%char)
              initial_state)
           (repeat "7"%char 99) ["9"%char; LF] "8"%char).
  - reflexivity.
  - reflexivity.
  - vm_compute. reflexivity.
  - apply repeat_length.
  - reflexivity.
Defined.

(** X7. A poll never waits while a line is being read or none has begun:
    in IDLE and in READING_INPUT [checkUserInput] returns, takes at most
    one byte from the receiver, and with an empty receiver changes
    nothing. *)
Theorem checkUserInput_never_waits (mktime : tm -> Z) (st : state) :
  interfaceState st <> PROCESSING_INPUT ->
  exists st',
    checkUserInput mktime st = Some st'
    /\ (uart_rx st' = uart_rx st \/ exists c, uart_rx st = c :: uart_rx st')
    /\ (uart_rx st = [] -> st' = st).
Proof.
  intros NP. unfold checkUserInput.
  destruct (interfaceState st) eqn:I; [| |contradiction NP; reflexivity].
  - destruct (uart_rx st) as [|c rx] eqn:E.
    + exists st. rewrite E. repeat split. left. reflexivity.
    + eexists. split; [reflexivity|]. st_simpl. rewrite E.
      split; [left; reflexivity | discriminate].
  - destruct (uart_rx st) as [|c rx] eqn:E.
    + exists st. rewrite E. repeat split. left. reflexivity.
    + st_simpl.
      destruct (negb (Ascii.eqb c LF) && negb (Ascii.eqb c CR)
                && (uint32 (inputIndex st) <? uint32 (BUFFER_SIZE - 1)));
        (eexists; split; [reflexivity|]); st_simpl;
        (split; [right; exists c; reflexivity | discriminate]).
Qed.

Lemma checkUserInput_never_waits_witness :
  checkUserInput mktime_utc initial_state = Some initial_state.
Proof.
  destruct (checkUserInput_never_waits mktime_utc initial_state)
    as (st' & E & _ & Same); [discriminate|].
  rewrite E. f_equal. apply Same. reflexivity.
Defined.

(** ** The dispatcher and its commands *)

(** Case analysis on everything a command branches on, innermost test
    first. *)
Ltac command_cases H :=
  repeat match type of H with
         | context [match ?x with _ => _ end] =>
             lazymatch x with
             | context [match _ with _ => _ end] => fail
             | _ => destruct x eqn:?
             end
         end;
  try discriminate H; injection H as <-.

Ltac unfold_commands H :=
  unfold processUserInput, setClock, setAlarm, chooseMelody,
    chooseLightEffect, setAlarmRepeat, displayAlarmStatus, toggleAlarm,
    getUserTimeInput, UARTReceiveStr in H.

Ltac bool_facts :=
  repeat match goal with
         | H : (_ && _) = true |- _ => apply andb_true_iff in H as [? ?]
         | H : (_ <=? _) = true |- _ => apply Z.leb_le in H
         | H : (_ <? _) = true |- _ => apply Z.ltb_lt in H
         end.

Lemma processUserInput_runtime
  (mktime : tm -> Z) (input : list ascii) (st st' : state) :
  processUserInput mktime input st = Some st' ->
  runtime_kept st st'.
Proof.
  intros H. unfold_commands H. command_cases H; constructor; reflexivity.
Qed.

(** X8. Whatever the command line and whatever is typed after it, a
    command that returns has left alone the reader state, the playback
    cursors, the repeat counter and the LED port. *)
Theorem dispatcher_keeps_runtime
  (mktime : tm -> Z) (input : list ascii) (st st' : state) :
  processUserInput mktime input st = Some st' ->
  runtime_kept st st'.
Proof. apply processUserInput_runtime. Qed.

Lemma dispatcher_keeps_runtime_witness :
  exists st',
    processUserInput mktime_utc ["4"%char]
      (entered ["3"]%string (match_event (armed 1000 5 5)))
    = Some st'
    /\ selectedMelodyID st' = 3
    /\ currentRepeatCount st' = 2
    /\ melodyIndex st' = 10.
Proof.
  eexists. split; [vm_compute; reflexivity|].
  split; [reflexivity|].
  destruct (dispatcher_keeps_runtime mktime_utc ["4"%char]
              (entered ["3"]%string (match_event (armed 1000 5 5)))
              _ eq_refl) as [_ _ _ _ _ M _ P _].
  split; [exact P | exact M].
Defined.

Lemma processUserInput_config
  (mktime : tm -> Z) (input : list ascii) (st st' : state) :
  processUserInput mktime input st = Some st' ->
  config_ok st ->
  config_ok st'.
Proof.
  intros H [M L C I]. unfold_commands H.
  command_cases H; bool_facts; constructor; st_simpl;
    try assumption; try lia.
Qed.

(** X9. The commands guard the settings: if melody and light effect are
    in 1..3, the repeat count is not negative and the interval is
    positive, they still are after any command, whatever was typed. *)
Theorem dispatcher_keeps_config
  (mktime : tm -> Z) (input : list ascii) (st st' : state) :
  processUserInput mktime input st = Some st' ->
  config_ok st ->
  config_ok st'.
Proof. apply processUserInput_config. Qed.

Lemma dispatcher_keeps_config_witness :
  exists st',
    processUserInput mktime_utc ["5"%char] (entered ["9"]%string initial_state)
    = Some st'
    /\ config_ok st'
    /\ selectedLightEffectID st' = 1.
Proof.
  eexists. split; [vm_compute; reflexivity|].
  split; [|reflexivity].
  apply (dispatcher_keeps_config mktime_utc ["5"%char]
           (entered ["9"]%string initial_state)).
  - vm_compute. reflexivity.
  - constructor; unfold entered, initial_state; st_simpl; lia.
Defined.

Lemma checkUserInput_input_ok (mktime : tm -> Z) (st st' : state) :
  checkUserInput mktime st = Some st' ->
  input_ok st ->
  input_ok st'.
Proof.
  intros H [I B]. unfold checkUserInput in H.
  destruct (interfaceState st).
  - destruct (uart_rx st); injection H as <-; constructor; st_simpl;
      try assumption; lia.
  - destruct (uart_rx st) as [|c rx];
      [injection H as <-; constructor; assumption|].
    st_simpl.
    destruct (negb (Ascii.eqb c LF) && negb (Ascii.eqb c CR)
              && (uint32 (inputIndex st) <? uint32 (BUFFER_SIZE - 1))) eqn:T;
      injection H as <-; constructor; st_simpl;
      rewrite ?store_length; try assumption.
    apply andb_true_iff in T as [_ T]. apply Z.ltb_lt in T.
    rewrite !uint32_small in T by (unfold BUFFER_SIZE; lia).
    unfold BUFFER_SIZE in T. rewrite int32_small by lia. lia.
  - destruct (processUserInput mktime (cstr (inputBuffer st)) st)
      as [s|] eqn:P; [|discriminate].
    injection H as <-.
    destruct (processUserInput_runtime mktime _ _ _ P)
      as [_ Kb Ki _ _ _ _ _ _].
    constructor; st_simpl; rewrite ?Kb, ?Ki; assumption.
Qed.

(** X10. The command line buffer is never overrun: through any number of
    turns of the main loop, whatever arrives at the receiver, the buffer
    keeps its 100 characters and the index stays between 0 and 99. *)
Theorem main_loop_keeps_buffer
  (mktime : tm -> Z) (n : nat) (st st' : state) :
  poll mktime n st = Some st' ->
  input_ok st ->
  input_ok st'.
Proof.
  revert st. induction n as [|n IH]; intros st H Ok; cbn [poll] in H.
  - injection H as <-. exact Ok.
  - destruct (checkUserInput mktime st) as [s|] eqn:C; [|discriminate].
    apply (IH s H). apply (checkUserInput_input_ok mktime st s C Ok).
Qed.

Lemma main_loop_keeps_buffer_witness :
  exists st',
    poll mktime_utc 150
      (set_uart_rx (repeat "7"%char 120 ++ [LF]) initial_state) = Some st'
    /\ input_ok st'.
Proof.
  eexists. split; [vm_compute; reflexivity|].
  apply (main_loop_keeps_buffer mktime_utc 150
           (set_uart_rx (repeat "7"%char 120 ++ [LF]) initial_state)).
  - vm_compute. reflexivity.
  - constructor; vm_compute; [split; discriminate | reflexivity].
Defined.

Lemma poll_add (mktime : tm -> Z) (a b : nat) (st : state) :
  poll mktime (a + b) st
  = match poll mktime a st with
    | Some st' => poll mktime b st'
    | None => None
    end.
Proof.
  revert st. induction a as [|a IH]; intros st; [reflexivity|].
  cbn [Nat.add poll]. destruct (checkUserInput mktime st); [apply IH|].
  reflexivity.
Qed.

(** The [default] of the dispatcher. *)
Lemma processUserInput_other
  (mktime : tm -> Z) (input : list ascii) (st : state) :
  atoi input < 1 \/ 7 < atoi input ->
  processUserInput mktime input st = Some (displayMenu st).
Proof.
  intros H. unfold processUserInput.
  destruct (atoi input) as [|[[[p|p|]|[p|p|]|]|[[p|p|]|[p|p|]|]|]|p];
    try reflexivity; lia.
Qed.

(** X11. A line that is no selection, through the main loop. From IDLE, a
    command line whose number (0 for text without one) is an [int]
    outside 1..7 takes one poll per byte and two more, after which the
    device is in IDLE again and has sent the menu and nothing else: the
    line is in the buffer, the bytes after its line end are still at the
    receiver, and every other variable and register is as before. *)
Theorem unknown_selection_redisplays
  (mktime : tm -> Z) (st : state) (l rest : list ascii) (eol : ascii) :
  interfaceState st = IDLE ->
  List.length (inputBuffer st) = 100%nat ->
  forallb line_char l = true ->
  (List.length l <= 99)%nat ->
  eol = LF \/ eol = CR ->
  uart_rx st = l ++ eol :: rest ->
  fits_int l ->
  decimal_value l < 1 \/ 7 < decimal_value l ->
  exists buf,
    poll mktime (List.length l + 3) st
    = Some (displayMenu
              (set_inputBuffer buf
                 (set_inputIndex (Z.of_nat (List.length l))
                    (set_uart_rx rest st))))
    /\ cstr buf = l
    /\ List.length buf = 100%nat.
Proof.
  intros I B P Len He E F H.
  replace (List.length l + 3)%nat
    with (1 + (List.length l + (1 + 1)))%nat by lia.
  rewrite poll_add. cbn [poll]. unfold checkUserInput at 1. rewrite I.
  destruct (uart_rx st) as [|a r] eqn:Erx; [destruct l; discriminate E|].
  rewrite E in Erx. clear E a r.
  rewrite poll_add.
  match goal with |- context [poll mktime (List.length l) ?s] =>
    destruct (reading_takes mktime l s (eol :: rest))
      as (buf & Ep & Lb & Fb)
  end; st_simpl; try assumption; try reflexivity; try lia.
  rewrite Ep. cbn [Nat.add Z.to_nat firstn app] in Fb.
  rewrite poll_add. cbn [poll].
  rewrite reading_ends with (c := eol) (rest := rest);
    st_simpl; try reflexivity; try lia; [|tauto].
  rewrite Z.add_0_l, Nat2Z.id.
  assert (C : cstr (store buf (List.length l) NUL) = l).
  { rewrite cstr_store_NUL; rewrite ?Fb; try assumption; try lia.
    reflexivity. }
  unfold checkUserInput at 1. st_simpl. rewrite C.
  rewrite processUserInput_other
    by (unfold atoi; rewrite (int32_small _ F); exact H).
  exists (store buf (List.length l) NUL).
  split; [|split; [exact C | rewrite store_length; exact Lb]].
  f_equal. destruct st. cbn [interfaceState] in I. subst. reflexivity.
Qed.

Lemma unknown_selection_redisplays_witness :
  exists buf,
    poll mktime_utc 7
      (set_uart_rx (list_ascii_of_string "help" ++ [LF; "7"%char])
         initial_state)
    = Some (displayMenu
              (set_inputBuffer buf
                 (set_inputIndex 4
                    (set_uart_rx ["7"%char] initial_state))))
    /\ cstr buf = list_ascii_of_string "help"
    /\ List.length buf = 100%nat.
Proof.
  apply (unknown_selection_redisplays mktime_utc
           (set_uart_rx (list_ascii_of_string "help" ++ [LF; "7"%char])
              initial_state)
           (list_ascii_of_string "help") ["7"%char] LF).
  - reflexivity.
  - reflexivity.
  - reflexivity.
  - cbn [List.length list_ascii_of_string]. lia.
  - left. reflexivity.
  - reflexivity.
  - split; vm_compute; [discriminate | reflexivity].
  - left. vm_compute. reflexivity.
Defined.

(** X12. Set-repeat-policy with both entries valid: of two typed numbers
    that an [int] can hold, a count that is not negative and a positive
    interval are both stored, and nothing else of the settings
    changes. *)
Theorem setAlarmRepeat_valid (st : state) (count interval rest : list ascii) :
  typed_line count -> typed_line interval ->
  fits_int count -> fits_int interval ->
  uart_rx st = count ++ LF :: interval ++ LF :: rest ->
  0 <= decimal_value count -> 0 < decimal_value interval ->
  exists st',
    setAlarmRepeat st = Some st'
    /\ alarmRepeatCount st' = decimal_value count
    /\ alarmIntervalSeconds st' = decimal_value interval
    /\ uart_rx st' = rest
    /\ alarmEnabled st' = alarmEnabled st
    /\ globalAlarmTime st' = globalAlarmTime st
    /\ selectedMelodyID st' = selectedMelodyID st
    /\ selectedLightEffectID st' = selectedLightEffectID st.
Proof.
  intros Tc Ti Fc Fi E Hc Hi.
  unfold setAlarmRepeat.
  rewrite (UARTReceiveStr_line _ count (interval ++ LF :: rest) Tc)
    by (st_simpl; exact E).
  rewrite (cstr_plain count) by apply Tc.
  unfold atoi. rewrite (int32_small (decimal_value count)) by exact Fc.
  apply Z.leb_le in Hc. rewrite Hc.
  rewrite (UARTReceiveStr_line _ interval rest Ti) by (st_simpl; reflexivity).
  rewrite (cstr_plain interval) by apply Ti.
  rewrite (int32_small (decimal_value interval)) by exact Fi.
  apply Z.ltb_lt in Hi. rewrite Hi.
  eexists. split; [reflexivity|]. repeat split.
Qed.

Lemma setAlarmRepeat_valid_witness :
  exists st',
    setAlarmRepeat (entered ["2"; "30"]%string initial_state) = Some st'
    /\ alarmRepeatCount st' = 2
    /\ alarmIntervalSeconds st' = 30.
Proof.
  assert (T2 : typed_line ["2"%char]).
  { split; [reflexivity|]. split; [discriminate|]. vm_compute. reflexivity. }
  assert (T30 : typed_line ["3"; "0"]%char).
  { split; [reflexivity|]. split; [discriminate|]. vm_compute. reflexivity. }
  assert (F2 : fits_int ["2"%char]) by (split; vm_compute; [discriminate | reflexivity]).
  assert (F30 : fits_int ["3"; "0"]%char) by (split; vm_compute; [discriminate | reflexivity]).
  destruct (setAlarmRepeat_valid (entered ["2"; "30"]%string initial_state)
              ["2"%char] ["3"; "0"]%char [] T2 T30 F2 F30 eq_refl)
    as (st' & E & C & I & _).
  - vm_compute. discriminate.
  - vm_compute. reflexivity.
  - exists st'. split; [exact E|]. split; [exact C | exact I].
Defined.

(** ** Setting the clock and the alarm *)

Lemma lor_land_same (x m : Z) : Z.land (Z.lor x m) m = m.
Proof.
  apply Z.bits_inj'. intros i _.
  rewrite Z.land_spec, Z.lor_spec.
  destruct (Z.testbit m i), (Z.testbit x i); reflexivity.
Qed.

Lemma getUserTimeInput_io (st st1 : state) (r : option datetime) :
  getUserTimeInput st = Some (r, st1) -> io_only st st1.
Proof.
  intros H. unfold getUserTimeInput, UARTReceiveStr in H. st_simpl.
  destruct (UARTReceiveStr_loop BUFFER_SIZE [] (uart_rx st))
    as [[[f b] rx]|]; [|discriminate].
  destruct (sscanf datetime_format (cstr b))
    as [|y [|m [|d [|h [|mi [|s [|]]]]]]];
    try destruct (fields_in_range _);
    injection H as <- <-; unfold io_only;
    eexists; cbv beta delta [UARTSendStr emit];
    first [ reflexivity
          | apply set_trace_ext;
            [st_simpl; rewrite <- ?app_assoc; reflexivity | reflexivity] ].
Qed.

(** X13. A date and time entry that is refused, for its format or for a
    field out of range, changes nothing: [setClock] and [setAlarm] return
    with the state as it was but for the bytes read and the messages
    sent; clock, match register and alarm time are as before. *)
Theorem refused_entry_changes_nothing
  (mktime : tm -> Z) (st st1 : state) :
  getUserTimeInput st = Some (None, st1) ->
  (exists s, setClock mktime st = Some s /\ io_only st s)
  /\ (exists s, setAlarm mktime st = Some s /\ io_only st s).
Proof.
  intros H. destruct (getUserTimeInput_io st st1 None H) as [evs E].
  unfold setClock, setAlarm. rewrite H.
  split; eexists; (split; [reflexivity|]).
  - exists (evs ++ [EvSend MsgClockNotSet]). rewrite E at 1.
    cbv beta delta [UARTSendStr emit].
    apply set_trace_ext;
      [st_simpl; rewrite <- ?app_assoc; reflexivity | reflexivity].
  - exists (evs ++ [EvSend MsgAlarmNotSet]). rewrite E at 1.
    cbv beta delta [UARTSendStr emit].
    apply set_trace_ext;
      [st_simpl; rewrite <- ?app_assoc; reflexivity | reflexivity].
Qed.

Lemma refused_entry_changes_nothing_witness :
  exists s,
    setAlarm mktime_utc (entered ["2024-13-01 10:00:00"]%string initial_state)
    = Some s
    /\ io_only (entered ["2024-13-01 10:00:00"]%string initial_state) s
    /\ RTC_TAR s = 0xFFFFFFFF.
Proof.
  destruct (refused_entry_changes_nothing mktime_utc
              (entered ["2024-13-01 10:00:00"]%string initial_state)
              (UARTSendStr MsgTimeOutOfRange
                 (UARTSendStr MsgTimePrompt (set_uart_rx [] initial_state))))
    as [_ (s & E & Io)].
  - vm_compute. reflexivity.
  - exists s. split; [exact E|]. split; [exact Io|].
    destruct Io as [evs ->]. reflexivity.
Defined.

(** X14. An accepted entry sets the alarm: the alarm time is what
    [mktime] makes of the entered fields (month and year rebased, DST
    unknown), the match register holds its low 32 bits, and the clock
    counter is enabled again. The alarm is not switched on by this: the
    enable flag, like the other settings, is as it was. *)
Theorem setAlarm_arms_match
  (mktime : tm -> Z) (st st1 : state) (d : datetime) :
  getUserTimeInput st = Some (Some d, st1) ->
  exists st',
    setAlarm mktime st = Some st'
    /\ globalAlarmTime st' = mktime (tm_of d (Some (-1)))
    /\ RTC_TAR st' = uint32 (globalAlarmTime st')
    /\ Z.land (RTC_SR st') RTC_SR_TCE_MASK = RTC_SR_TCE_MASK
    /\ RTC_TSR st' = RTC_TSR st
    /\ alarmEnabled st' = alarmEnabled st
    /\ alarmRepeatCount st' = alarmRepeatCount st
    /\ alarmIntervalSeconds st' = alarmIntervalSeconds st.
Proof.
  intros H. destruct (getUserTimeInput_io st st1 _ H) as [evs E].
  rewrite (setAlarm_accepted mktime st st1 d H).
  eexists. split; [reflexivity|]. st_simpl.
  rewrite lor_land_same, E.
  repeat split.
Qed.

Lemma setAlarm_arms_match_witness :
  exists st',
    setAlarm mktime_utc (entered ["2030-01-01 07:00:00"]%string initial_state)
    = Some st'
    /\ globalAlarmTime st' = 1893481200
    /\ RTC_TAR st' = 1893481200
    /\ alarmEnabled st' = false.
Proof.
  destruct (setAlarm_arms_match mktime_utc
              (entered ["2030-01-01 07:00:00"]%string initial_state)
              (UARTSendStr MsgTimePrompt (set_uart_rx [] initial_state))
              (mkDatetime 2030 1 1 7 0 0))
    as (st' & E & G & T & _ & _ & En & _).
  - vm_compute. reflexivity.
  - exists st'. split; [exact E|].
    split; [rewrite G; reflexivity|].
    split; [rewrite T, G; reflexivity | rewrite En; reflexivity].
Defined.

(** X15. An accepted entry sets the clock: the time counter holds the low
    32 bits of what [mktime] makes of the entered fields, the counter is
    enabled again, and neither the match register nor the alarm time is
    touched. *)
Theorem setClock_sets_counter
  (mktime : tm -> Z) (st st1 : state) (d : datetime) :
  getUserTimeInput st = Some (Some d, st1) ->
  exists st',
    setClock mktime st = Some st'
    /\ RTC_TSR st' = uint32 (mktime (tm_of d None))
    /\ Z.land (RTC_SR st') RTC_SR_TCE_MASK = RTC_SR_TCE_MASK
    /\ RTC_TAR st' = RTC_TAR st
    /\ globalAlarmTime st' = globalAlarmTime st.
Proof.
  intros H. destruct (getUserTimeInput_io st st1 _ H) as [evs E].
  rewrite (setClock_accepted mktime st st1 d H).
  eexists. split; [reflexivity|]. st_simpl.
  rewrite lor_land_same, E.
  repeat split.
Qed.

Lemma setClock_sets_counter_witness :
  exists st',
    setClock mktime_utc (entered ["2024-02-29 23:59:59"]%string initial_state)
    = Some st'
    /\ RTC_TSR st' = 1709251199.
Proof.
  destruct (setClock_sets_counter mktime_utc
              (entered ["2024-02-29 23:59:59"]%string initial_state)
              (UARTSendStr MsgTimePrompt (set_uart_rx [] initial_state))
              (mkDatetime 2024 2 29 23 59 59))
    as (st' & E & T & _).
  - vm_compute. reflexivity.
  - exists st'. split; [exact E|]. rewrite T. reflexivity.
Defined.

(** X16. Round trip through the menu: after command 2 with an accepted
    entry, command 7 reports as alarm time exactly the time command 2
    stored, next to the settings as they stand, and then the menu. *)
Theorem alarm_time_round_trip
  (mktime : tm -> Z) (st st1 : state) (d : datetime) :
  getUserTimeInput st = Some (Some d, st1) ->
  exists st2 st3,
    processUserInput mktime ["2"%char] st = Some st2
    /\ processUserInput mktime ["7"%char] st2 = Some st3
    /\ globalAlarmTime st2 = mktime (tm_of d (Some (-1)))
    /\ added st2 st3
       = [EvSend (MsgStatus (alarmEnabled st)
                    (mktime (tm_of d (Some (-1)))) (RTC_TSR st)
                    (selectedMelodyID st) (selectedLightEffectID st)
                    (alarmRepeatCount st) (alarmIntervalSeconds st));
          EvSend MsgMenu].
Proof.
  intros H. destruct (getUserTimeInput_io st st1 _ H) as [evs E].
  change (processUserInput mktime ["2"%char] st)
    with (let? s := setAlarm mktime st in Some (displayMenu s)).
  rewrite (setAlarm_accepted mktime st st1 d H).
  eexists. eexists. split; [reflexivity|].
  split; [reflexivity|]. split; [reflexivity|].
  rewrite E. apply added_app. unfold displayAlarmStatus, tm_of. st_simpl.
  rewrite <- !app_assoc. reflexivity.
Qed.

Lemma alarm_time_round_trip_witness :
  exists st2 st3,
    processUserInput mktime_utc ["2"%char]
      (entered ["2030-01-01 07:00:00"]%string initial_state) = Some st2
    /\ processUserInput mktime_utc ["7"%char] st2 = Some st3
    /\ added st2 st3
       = [EvSend (MsgStatus false 1893481200 0 1 1 5 5); EvSend MsgMenu].
Proof.
  destruct (alarm_time_round_trip mktime_utc
              (entered ["2030-01-01 07:00:00"]%string initial_state)
              (UARTSendStr MsgTimePrompt (set_uart_rx [] initial_state))
              (mkDatetime 2030 1 1 7 0 0))
    as (st2 & st3 & E2 & E3 & _ & A).
  - vm_compute. reflexivity.
  - exists st2, st3. split; [exact E2|]. split; [exact E3|].
    rewrite A. reflexivity.
Defined.

(** ** What the sequencers emit *)

Lemma added_nil (st st' : state) : trace st' = trace st -> added st st' = [].
Proof. intros E. unfold added. rewrite E. apply skipn_all. Qed.

(** X17. The three melodies, step by step: at step [i] of its ten steps
    melody 1 sounds one tone of [50000 + 5000 i] and pauses 50000; melody
    2 sounds three tones of [100000 + 10000 i] with pauses of 10000
    between them; melody 3 sounds four tones, of [10000 + 5000 i] and
    [100000 + 5000 i] in turn, with pauses of 2000, 10000, 5000 and 1000
    after them. Each step advances the tone index by one. *)
Theorem melody_step_formulas (st : state) :
  0 <= melodyIndex st < TOTAL_NOTES ->
  let i := melodyIndex st in
  (selectedMelodyID st = 1 ->
   added st (playNextNote st) = tone (50000 + 5000 * i) ++ [EvDelay 50000])
  /\ (selectedMelodyID st = 2 ->
      added st (playNextNote st)
      = tone (100000 + 10000 * i) ++ [EvDelay 10000]
        ++ tone (100000 + 10000 * i) ++ [EvDelay 10000]
        ++ tone (100000 + 10000 * i))
  /\ (selectedMelodyID st = 3 ->
      added st (playNextNote st)
      = tone (10000 + 5000 * i) ++ [EvDelay 2000]
        ++ tone (100000 + 5000 * i) ++ [EvDelay 10000]
        ++ tone (10000 + 5000 * i) ++ [EvDelay 5000]
        ++ tone (100000 + 5000 * i) ++ [EvDelay 1000])
  /\ melodyIndex (playNextNote st) = i + 1.
Proof.
  intros R. cbv zeta. unfold TOTAL_NOTES in R.
  rewrite playNextNote_step by (unfold TOTAL_NOTES; lia).
  assert (A : forall a b, 0 <= a -> a + b * 10 < 2 ^ 31 -> 0 <= b ->
              uint32 (int32 (a + int32 (melodyIndex st * b)))
              = a + b * melodyIndex st).
  { intros a b Ha Hab Hb.
    rewrite (int32_small (melodyIndex st * b)) by nia.
    rewrite int32_small by nia. rewrite uint32_small by nia. lia. }
  split; [|split; [|split]].
  - intros E. apply added_app. unfold melody_case. rewrite E.
    st_simpl. rewrite A by lia. rewrite <- !app_assoc. reflexivity.
  - intros E. apply added_app. unfold melody_case. rewrite E.
    st_simpl. rewrite A by lia. rewrite <- !app_assoc. reflexivity.
  - intros E. apply added_app. unfold melody_case. rewrite E.
    st_simpl. rewrite !A by lia. rewrite <- !app_assoc. reflexivity.
  - st_simpl. apply int32_small. lia.
Qed.

Lemma melody_step_formulas_witness :
  added (set_melodyIndex 3 (startMelody 1 initial_state))
    (playNextNote (set_melodyIndex 3 (startMelody 1 initial_state)))
  = [EvSpeaker true; EvDelay 65000; EvSpeaker false; EvDelay 50000].
Proof.
  destruct (melody_step_formulas
              (set_melodyIndex 3 (startMelody 1 initial_state)))
    as (M1 & _).
  - st_simpl. unfold TOTAL_NOTES. lia.
  - rewrite M1 by reflexivity. reflexivity.
Defined.

(** The LED lines under the two masks the handler and effect 1 use. *)
Lemma leds_all_on (p m : Z) :
  In m all_leds -> led_lit (uint32 (Z.land p (Z.lnot 0x3C))) m = true.
Proof.
  intros H. unfold led_lit, uint32.
  change (2 ^ 32) with (2 ^ 32). rewrite <- Z.land_ones by lia.
  rewrite <- !Z.land_assoc.
  replace (Z.land (Z.lnot 60) (Z.land (Z.ones 32) m)) with 0.
  - rewrite Z.land_0_r. reflexivity.
  - cbn in H. destruct H as [<-|[<-|[<-|[<-|[]]]]]; reflexivity.
Qed.

Lemma leds_all_off (p m : Z) :
  In m all_leds -> led_lit (uint32 (Z.lor p 0x3C)) m = false.
Proof.
  intros H. unfold led_lit, uint32.
  rewrite <- Z.land_ones by lia.
  rewrite <- Z.land_assoc.
  replace (Z.land (Z.ones 32) m) with m
    by (cbn in H; destruct H as [<-|[<-|[<-|[<-|[]]]]]; reflexivity).
  rewrite Z.land_lor_distr_l.
  replace (Z.land 60 m) with m
    by (cbn in H; destruct H as [<-|[<-|[<-|[<-|[]]]]]; reflexivity).
  apply Z.eqb_neq. intros Z0. apply Z.lor_eq_0_iff in Z0 as [_ Z0].
  cbn in H. destruct H as [<-|[<-|[<-|[<-|[]]]]]; discriminate Z0.
Qed.

(** X18. Light effect 1 blinks all four LEDs together: after an even
    step all four are lit, after an odd step none is, whatever the LED
    port held before. *)
Theorem light_effect_1_blinks (st : state) :
  selectedLightEffectID st = 1 ->
  0 <= lightIndex st < TOTAL_LIGHT_STATES ->
  lit_leds (PTB_PDOR (updateLights st))
  = if Z.even (lightIndex st) then all_leds else [].
Proof.
  intros E R. rewrite updateLights_step by lia. st_simpl.
  unfold light_case. rewrite E. cbv beta iota zeta.
  rewrite Zeven_mod, Z.rem_mod_nonneg by lia.
  unfold lit_leds. destruct (lightIndex st mod 2 =? 0); st_simpl.
  - cbn [filter].
    rewrite !leds_all_on by (cbn; tauto). reflexivity.
  - cbn [filter].
    rewrite !leds_all_off by (cbn; tauto). reflexivity.
Qed.

Lemma light_effect_1_blinks_witness :
  lit_leds (PTB_PDOR (updateLights (startLightEffect 1 initial_state)))
  = [LED_D12; LED_D11; LED_D10; LED_D9].
Proof.
  rewrite light_effect_1_blinks.
  - reflexivity.
  - reflexivity.
  - st_simpl. unfold TOTAL_LIGHT_STATES. lia.
Defined.

(** X19. Light effect 3 lights exactly one LED at every step, the one on
    port line [i mod 4 + 2]: D12, D11, D10, D9 and round again. *)
Theorem light_effect_3_rotates (st : state) :
  selectedLightEffectID st = 3 ->
  0 <= lightIndex st < TOTAL_LIGHT_STATES ->
  lit_leds (PTB_PDOR (updateLights st)) = [2 ^ (lightIndex st mod 4 + 2)].
Proof.
  intros E R. rewrite updateLights_step by lia. st_simpl.
  unfold light_case. rewrite E. cbv beta iota zeta. st_simpl.
  rewrite Z.rem_mod_nonneg by lia.
  assert (B := Z.mod_pos_bound (lightIndex st) 4 ltac:(lia)).
  assert (C : lightIndex st mod 4 = 0 \/ lightIndex st mod 4 = 1
              \/ lightIndex st mod 4 = 2 \/ lightIndex st mod 4 = 3) by lia.
  destruct C as [-> | [-> | [-> | ->]]]; reflexivity.
Qed.

Lemma light_effect_3_rotates_witness :
  lit_leds
    (PTB_PDOR
       (updateLights (set_lightIndex 5 (startLightEffect 3 initial_state))))
  = [LED_D11].
Proof.
  rewrite light_effect_3_rotates.
  - reflexivity.
  - reflexivity.
  - st_simpl. unfold TOTAL_LIGHT_STATES. lia.
Defined.

(** X20. The two sequencers keep to their own outputs: a tone step never
    writes the LED port and never moves the light cursor; a light step
    never drives the speaker and never moves the tone cursor; neither
    changes a setting. *)
Theorem sequencers_keep_apart (st : state) :
  (PTB_PDOR (playNextNote st) = PTB_PDOR st
   /\ lightIndex (playNextNote st) = lightIndex st
   /\ isShowingLights (playNextNote st) = isShowingLights st
   /\ existsb is_leds (added st (playNextNote st)) = false)
  /\ (melodyIndex (updateLights st) = melodyIndex st
      /\ isPlayingMelody (updateLights st) = isPlayingMelody st
      /\ existsb is_speaker (added st (updateLights st)) = false)
  /\ (selectedMelodyID (updateLights (playNextNote st)) = selectedMelodyID st
      /\ selectedLightEffectID (updateLights (playNextNote st))
         = selectedLightEffectID st
      /\ alarmEnabled (updateLights (playNextNote st)) = alarmEnabled st
      /\ currentRepeatCount (updateLights (playNextNote st))
         = currentRepeatCount st
      /\ RTC_TAR (updateLights (playNextNote st)) = RTC_TAR st).
Proof.
  assert (FP : forall s,
             exists evs,
               existsb is_leds evs = false
               /\ trace (melody_case s) = trace s ++ evs).
  { intros s. unfold melody_case.
    destruct (selectedMelodyID s) as [|[[?|?|]|[?|?|]|]|?];
      st_simpl; rewrite <- ?app_assoc;
      try (eexists; split; [|reflexivity]; reflexivity);
      exists []; rewrite app_nil_r; split; reflexivity. }
  assert (FL : forall s,
             exists evs,
               existsb is_speaker evs = false
               /\ trace (light_case s) = trace s ++ evs).
  { intros s. unfold light_case.
    destruct (selectedLightEffectID s) as [|[[?|?|]|[?|?|]|]|?];
      try destruct (Z.rem (lightIndex s) 2 =? 0);
      st_simpl; rewrite <- ?app_assoc;
      try (eexists; split; [|reflexivity]; reflexivity);
      exists []; rewrite app_nil_r; split; reflexivity. }
  assert (P : exists evs,
             existsb is_leds evs = false
             /\ playNextNote st
                = set_trace (trace st ++ evs)
                    (set_melodyIndex (melodyIndex (playNextNote st))
                       (set_isPlayingMelody
                          (isPlayingMelody (playNextNote st)) st))).
  { unfold playNextNote.
    destruct (melodyIndex st <? TOTAL_NOTES).
    - destruct (FP st) as (evs & N & T). exists evs. split; [exact N|].
      rewrite melody_case_frame, T. destruct st; reflexivity.
    - exists []. split; [reflexivity|]. rewrite app_nil_r.
      destruct st; reflexivity. }
  assert (L : forall s, exists evs,
             existsb is_speaker evs = false
             /\ updateLights s
                = set_trace (trace s ++ evs)
                    (set_PTB_PDOR (PTB_PDOR (updateLights s))
                       (set_lightIndex (lightIndex (updateLights s))
                          (set_isShowingLights
                             (isShowingLights (updateLights s)) s)))).
  { intros s. unfold updateLights.
    destruct (lightIndex s <? TOTAL_LIGHT_STATES).
    - destruct (FL s) as (evs & N & T). exists evs. split; [exact N|].
      rewrite light_case_frame, T. destruct s; reflexivity.
    - exists []. split; [reflexivity|]. rewrite app_nil_r.
      destruct s; reflexivity. }
  destruct P as (e1 & N1 & P).
  destruct (L st) as (e2 & N2 & L2).
  destruct (L (playNextNote st)) as (e3 & _ & L3).
  split; [|split].
  - rewrite P. st_simpl. repeat split.
    erewrite added_app; [exact N1 | reflexivity].
  - rewrite L2. st_simpl. repeat split.
    erewrite added_app; [exact N2 | reflexivity].
  - rewrite L3. st_simpl. rewrite P. st_simpl. repeat split.
Qed.

(** ** The playback loop and the handler, for every state *)

Lemma playNextNote_frame (st : state) :
  exists evs m pm,
    playNextNote st
    = after_playback evs (PTB_PDOR st) m (lightIndex st) pm
        (isShowingLights st) st.
Proof.
  unfold playNextNote. destruct (melodyIndex st <? TOTAL_NOTES).
  - destruct (melody_case_trace st) as [evs T].
    exists evs, (int32 (melodyIndex (melody_case st) + 1)),
      (isPlayingMelody st).
    rewrite melody_case_frame, T. destruct st; reflexivity.
  - exists [], (melodyIndex st), false. unfold after_playback.
    rewrite app_nil_r. destruct st; reflexivity.
Qed.

Lemma updateLights_frame (st : state) :
  exists evs pdor l sl,
    updateLights st
    = after_playback evs pdor (melodyIndex st) l (isPlayingMelody st) sl st.
Proof.
  unfold updateLights. destruct (lightIndex st <? TOTAL_LIGHT_STATES).
  - destruct (light_case_trace st) as [evs T].
    exists evs, (PTB_PDOR (light_case st)),
      (int32 (lightIndex (light_case st) + 1)), (isShowingLights st).
    rewrite light_case_frame, T. destruct st; reflexivity.
  - exists [], (PTB_PDOR st), (lightIndex st), false. unfold after_playback.
    rewrite app_nil_r. destruct st; reflexivity.
Qed.

Lemma after_playback_twice
  (e1 e2 : list event) (p1 p2 m1 m2 l1 l2 : Z) (a1 a2 b1 b2 : bool)
  (st : state) :
  after_playback e2 p2 m2 l2 a2 b2 (after_playback e1 p1 m1 l1 a1 b1 st)
  = after_playback (e1 ++ e2) p2 m2 l2 a2 b2 st.
Proof.
  unfold after_playback. st_simpl. rewrite <- app_assoc. reflexivity.
Qed.

(** The loop of the handler, from any state: it ends with one of the two
    cursors inactive, and has changed cursors, LED port and trace only. *)
Lemma playback_frame (st : state) :
  playback_guard (playback st) = false
  /\ exists evs pdor m l pm sl,
       playback st = after_playback evs pdor m l pm sl st.
Proof.
  funelim (playback st).
  - destruct H as [Q (e3 & p3 & m3 & l3 & a3 & b3 & E3)].
    split; [exact Q|].
    destruct (playNextNote_frame st) as (e1 & m1 & a1 & E1).
    destruct (updateLights_frame (playNextNote st))
      as (e2 & p2 & l2 & b2 & E2).
    rewrite E3, E2, E1, !after_playback_twice.
    repeat eexists.
  - split.
    + destruct (playback_guard st); [contradiction n; reflexivity|].
      reflexivity.
    + exists [], (PTB_PDOR st), (melodyIndex st), (lightIndex st),
        (isPlayingMelody st), (isShowingLights st).
      unfold after_playback. rewrite app_nil_r. destruct st; reflexivity.
Qed.

Lemma RTC_IRQHandler_settings (st : state) :
  alarmEnabled (RTC_IRQHandler st) = alarmEnabled st
  /\ globalAlarmTime (RTC_IRQHandler st) = globalAlarmTime st
  /\ alarmRepeatCount (RTC_IRQHandler st) = alarmRepeatCount st
  /\ alarmIntervalSeconds (RTC_IRQHandler st) = alarmIntervalSeconds st
  /\ selectedMelodyID (RTC_IRQHandler st) = selectedMelodyID st
  /\ selectedLightEffectID (RTC_IRQHandler st) = selectedLightEffectID st
  /\ interfaceState (RTC_IRQHandler st) = interfaceState st
  /\ inputBuffer (RTC_IRQHandler st) = inputBuffer st
  /\ inputIndex (RTC_IRQHandler st) = inputIndex st
  /\ uart_rx (RTC_IRQHandler st) = uart_rx st
  /\ RTC_TSR (RTC_IRQHandler st) = RTC_TSR st
  /\ RTC_SR (RTC_IRQHandler st) = RTC_SR st.
Proof.
  unfold RTC_IRQHandler.
  destruct (negb (Z.land (RTC_SR st) RTC_SR_TAF_MASK =? 0));
    [|repeat split].
  unfold handleAlarmRepeats.
  destruct (alarmEnabled st) eqn:En;
    [|st_simpl; rewrite En; repeat split; exact En].
  destruct (currentRepeatCount st <? int32 (alarmRepeatCount st + 1)).
  - st_simpl. rewrite En.
    match goal with |- context [playback ?s] =>
      destruct (playback_frame s) as [_ (e & p & m & l & a & b & E)];
      rewrite E
    end.
    st_simpl. repeat split. exact En.
  - st_simpl. rewrite En.
    match goal with |- context [playback ?s] =>
      destruct (playback_frame s) as [_ (e & p & m & l & a & b & E)];
      rewrite E
    end.
    st_simpl. repeat split. exact En.
Qed.

(** X21. The interrupt handler, in any state and whether or not the alarm
    flag is raised, leaves every setting as it was (enable flag, alarm
    time, repeat count and interval, melody and light effect), and
    touches neither the command reader nor the receiver nor the clock. *)
Theorem handler_keeps_settings (st : state) :
  alarmEnabled (RTC_IRQHandler st) = alarmEnabled st
  /\ globalAlarmTime (RTC_IRQHandler st) = globalAlarmTime st
  /\ alarmRepeatCount (RTC_IRQHandler st) = alarmRepeatCount st
  /\ alarmIntervalSeconds (RTC_IRQHandler st) = alarmIntervalSeconds st
  /\ selectedMelodyID (RTC_IRQHandler st) = selectedMelodyID st
  /\ selectedLightEffectID (RTC_IRQHandler st) = selectedLightEffectID st
  /\ interfaceState (RTC_IRQHandler st) = interfaceState st
  /\ inputBuffer (RTC_IRQHandler st) = inputBuffer st
  /\ inputIndex (RTC_IRQHandler st) = inputIndex st
  /\ uart_rx (RTC_IRQHandler st) = uart_rx st
  /\ RTC_TSR (RTC_IRQHandler st) = RTC_TSR st
  /\ RTC_SR (RTC_IRQHandler st) = RTC_SR st.
Proof. apply RTC_IRQHandler_settings. Qed.

(** X22. When the handler has served a match event with the alarm
    enabled, no playback is pending (one of the two cursors is inactive)
    and all four LEDs are off. *)
Theorem handler_leaves_leds_off (st : state) :
  alarmEnabled st = true ->
  playback_guard (match_event st) = false
  /\ lit_leds (PTB_PDOR (match_event st)) = [].
Proof.
  intros En. unfold match_event, RTC_IRQHandler. st_simpl.
  rewrite taf_raised. cbn [RTC_SR_TAF_MASK Z.eqb negb].
  match goal with |- context [alarmEnabled (handleAlarmRepeats ?s)] =>
    assert (E' : alarmEnabled (handleAlarmRepeats s) = true)
  end.
  { unfold handleAlarmRepeats. st_simpl. rewrite En.
    match goal with |- context [if ?c then _ else _] => destruct c end;
      exact En. }
  rewrite E'.
  match goal with |- context [playback ?s] =>
    destruct (playback_frame s) as [Q (e & p & m & l & a & b & E)];
    rewrite E in *
  end.
  unfold playback_guard in *. st_simpl. split; [exact Q|].
  unfold lit_leds. cbn [filter].
  rewrite !leds_all_off by (cbn; tauto). reflexivity.
Qed.

Lemma handler_leaves_leds_off_witness :
  playback_guard (match_event (armed 1000 5 5)) = false
  /\ lit_leds (PTB_PDOR (match_event (armed 1000 5 5))) = [].
Proof. apply handler_leaves_leds_off. reflexivity. Defined.

(** ** The repeat run, in general *)

(** X23. An enabled alarm with repeat count [n] and interval [k], armed
    for time [t] with the repeat counter at its start, goes through
    [n + 1] match events: the first [n] play and re-arm the match
    register to [t + k], [t + 2k], ..., [t + n k]; the last plays nothing
    and disarms. (The times must fit the 32 bit registers.) *)
Theorem repeat_run_schedule
  (t k : Z) (n : nat) (st : state) (fuel : nat) :
  running t (Z.of_nat n) k 1 st ->
  Z.of_nat n < 2 ^ 31 - 1 -> 0 < k -> Z.of_nat n * k < 2 ^ 31 ->
  0 < t -> t + Z.of_nat n * k < 2 ^ 32 ->
  (n < fuel)%nat ->
  firing fuel st
  = map (fun i => (true, t + Z.of_nat i * k)) (seq 1 n) ++ [(false, 0)]
  /\ episodes (firing fuel st) = n
  /\ rearms (firing fuel st) = map (fun i => t + Z.of_nat i * k) (seq 1 n).
Proof.
  intros R Hn Hk Hnk Ht Htn Hf.
  split; [apply firing_schedule; assumption|].
  destruct (firing_episodes t k n st fuel R Hn Hk Hnk Ht Htn Hf)
    as (E & A & _).
  split; assumption.
Qed.

Lemma repeat_run_schedule_witness :
  firing 5 (armed 1700000000 3 60)
  = [(true, 1700000060); (true, 1700000120); (true, 1700000180); (false, 0)].
Proof.
  destruct (repeat_run_schedule 1700000000 60 3 (armed 1700000000 3 60) 5)
    as [F _]; try lia.
  - constructor; unfold armed, initial_state; st_simpl;
      try reflexivity; try lia. discriminate.
  - rewrite F. reflexivity.
Defined.

(** X24. Whenever the handler re-arms (alarm enabled, repeats left, a
    valid melody), it plays before it returns: the ten tone steps are
    done and the tone cursor is inactive, while the light sequence has
    taken eleven steps and its cursor is still marked active. *)
Theorem rearming_handler_plays (st : state) :
  alarmEnabled st = true ->
  currentRepeatCount st < int32 (alarmRepeatCount st + 1) ->
  1 <= selectedMelodyID st <= 3 ->
  played st (match_event st) = true
  /\ melodyIndex (match_event st) = TOTAL_NOTES
  /\ isPlayingMelody (match_event st) = false
  /\ lightIndex (match_event st) = 11
  /\ isShowingLights (match_event st) = true
  /\ RTC_TAR (match_event st)
     = uint32 (globalAlarmTime st
               + int32 (currentRepeatCount st * alarmIntervalSeconds st))
  /\ currentRepeatCount (match_event st)
     = int32 (currentRepeatCount st + 1).
Proof.
  intros En Lt V.
  destruct (match_event_rearm st En Lt V) as (evs & pdor & E).
  rewrite E. split; [|repeat split].
  unfold played. erewrite added_app; [|trace_eq]. reflexivity.
Qed.

Lemma rearming_handler_plays_witness :
  played (armed 1000 5 5) (match_event (armed 1000 5 5)) = true
  /\ lightIndex (match_event (armed 1000 5 5)) = 11
  /\ RTC_TAR (match_event (armed 1000 5 5)) = 1005.
Proof.
  destruct (rearming_handler_plays (armed 1000 5 5))
    as (P & _ & _ & L & _ & T & _).
  - reflexivity.
  - vm_compute. reflexivity.
  - unfold armed, initial_state. st_simpl. lia.
  - split; [exact P|]. split; [exact L|]. rewrite T. reflexivity.
Defined.

(** ** Line ends on the wire *)

(** X25. [UARTSendStr] sends a carriage return after every line feed:
    on the wire no line feed is last, and none is followed by anything
    but a carriage return. Text without a line feed goes out as it is,
    up to the terminating NUL. *)
Theorem UARTSendStr_line_ends (s : list ascii) :
  (forall pre post,
     UARTSendStr_bytes s = pre ++ LF :: post ->
     exists post', post = CR :: post')
  /\ (existsb (Ascii.eqb LF) (cstr s) = false ->
      UARTSendStr_bytes s = cstr s).
Proof.
  split.
  - induction s as [|c s IH]; intros pre post E; cbn [UARTSendStr_bytes] in E.
    + destruct pre; discriminate E.
    + destruct (Ascii.eqb c NUL); [destruct pre; discriminate E|].
      destruct (Ascii.eqb c LF) eqn:L.
      * apply Ascii.eqb_eq in L. subst c.
        destruct pre as [|a pre]; cbn [app] in E.
        -- injection E as <-. eexists. reflexivity.
        -- injection E as _ E. destruct pre as [|b pre]; cbn [app] in E.
           ++ discriminate E.
           ++ injection E as _ E. apply (IH pre post E).
      * destruct pre as [|a pre]; cbn [app] in E.
        -- injection E as -> _. discriminate L.
        -- injection E as _ E. apply (IH pre post E).
  - induction s as [|c s IH]; intros N; [reflexivity|].
    cbn [UARTSendStr_bytes cstr] in *.
    destruct (Ascii.eqb c NUL); [reflexivity|].
    cbn [existsb] in N. apply orb_false_iff in N as [N1 N2].
    rewrite Ascii.eqb_sym, N1. rewrite IH by exact N2. reflexivity.
Qed.

(** ** Commands and match events together *)

(** What [%d] reads from text whose number an [int] can hold is that
    number. *)
Lemma scan_int_fits (s : list ascii) (v : Z) (rest : list ascii) :
  fits_int s -> scan_int s = Some (v, rest) -> v = decimal_value s.
Proof.
  unfold fits_int, decimal_value, scan_int.
  destruct (scan_sign (skip_space s)) as [neg digits].
  destruct digits as [|c digits]; [discriminate 2|].
  destruct (isdigit c); [|discriminate 2].
  destruct (scan_digits 0 (c :: digits)) as [w r].
  intros F E. injection E as <- _. apply int32_small. exact F.
Qed.

(** X26. The enable command (selection 3), for a typed line whose number
    an [int] can hold: a line that starts with the number 1 switches the
    alarm on, one that starts with the number 0 switches it off, and any
    other line, with another number or with none, leaves the flag as it
    is. *)
Theorem toggle_command
  (mktime : tm -> Z) (st : state) (l rest : list ascii) :
  typed_line l ->
  fits_int l ->
  uart_rx st = l ++ LF :: rest ->
  exists st',
    processUserInput mktime ["3"%char] st = Some st'
    /\ alarmEnabled st'
       = match scan_int l with
         | Some _ =>
             if decimal_value l =? 1 then true
             else if decimal_value l =? 0 then false
             else alarmEnabled st
         | None => alarmEnabled st
         end
    /\ uart_rx st' = rest
    /\ RTC_TAR st' = RTC_TAR st.
Proof.
  intros T F E.
  change (processUserInput mktime ["3"%char] st)
    with (let st0 := UARTSendStr MsgTogglePrompt st in
          let? (_, buffer, st1) := UARTReceiveStr BUFFER_SIZE st0 in
          let st2 :=
            match sscanf [DInt] (cstr buffer) with
            | [enable] => toggleAlarm enable st1
            | _ => UARTSendStr MsgToggleFormat st1
            end in
          Some (displayMenu st2)).
  cbv zeta.
  rewrite (UARTReceiveStr_line _ l rest T) by (st_simpl; exact E).
  rewrite (cstr_plain l) by apply T.
  eexists. split; [reflexivity|].
  cbn [sscanf].
  destruct (scan_int l) as [[v r]|] eqn:S; st_simpl.
  - apply (scan_int_fits l v r F) in S. subst v.
    unfold toggleAlarm.
    destruct (decimal_value l =? 1); [repeat split; reflexivity|].
    destruct (decimal_value l =? 0); repeat split; reflexivity.
  - repeat split; reflexivity.
Qed.

Lemma toggle_command_witness :
  exists st',
    processUserInput mktime_utc ["3"%char] (entered ["1"]%string initial_state)
    = Some st'
    /\ alarmEnabled st' = true.
Proof.
  assert (T : typed_line ["1"%char]).
  { split; [reflexivity|]. split; [discriminate|]. vm_compute. reflexivity. }
  assert (F : fits_int ["1"%char]) by (split; vm_compute; [discriminate | reflexivity]).
  destruct (toggle_command mktime_utc (entered ["1"]%string initial_state)
              ["1"%char] [] T F eq_refl) as (st' & E & En & _).
  exists st'. split; [exact E | exact En].
Defined.

(** X27. Setting an alarm time does not switch the alarm on. With the
    alarm disabled, an accepted entry arms the match register, and the
    match event that follows plays nothing, disarms the register and
    leaves the repeat counter at its start. *)
Theorem alarm_set_but_not_enabled
  (mktime : tm -> Z) (st st1 : state) (d : datetime) :
  getUserTimeInput st = Some (Some d, st1) ->
  alarmEnabled st = false ->
  exists st',
    setAlarm mktime st = Some st'
    /\ RTC_TAR st' = uint32 (mktime (tm_of d (Some (-1))))
    /\ played st' (match_event st') = false
    /\ RTC_TAR (match_event st') = 0
    /\ currentRepeatCount (match_event st') = 1.
Proof.
  intros H En. destruct (getUserTimeInput_io st st1 _ H) as [evs E].
  rewrite (setAlarm_accepted mktime st st1 d H).
  eexists. split; [reflexivity|]. split; [reflexivity|].
  rewrite match_event_disabled by (st_simpl; rewrite E; exact En).
  split; [|split; reflexivity].
  unfold played. erewrite added_app; [|trace_eq]. reflexivity.
Qed.

Lemma alarm_set_but_not_enabled_witness :
  exists st',
    setAlarm mktime_utc (entered ["2030-01-01 07:00:00"]%string initial_state)
    = Some st'
    /\ RTC_TAR st' = 1893481200
    /\ played st' (match_event st') = false
    /\ RTC_TAR (match_event st') = 0.
Proof.
  destruct (alarm_set_but_not_enabled mktime_utc
              (entered ["2030-01-01 07:00:00"]%string initial_state)
              (UARTSendStr MsgTimePrompt (set_uart_rx [] initial_state))
              (mkDatetime 2030 1 1 7 0 0))
    as (st' & E & T & P & Z0 & _).
  - vm_compute. reflexivity.
  - reflexivity.
  - exists st'. split; [exact E|]. split; [rewrite T; reflexivity|].
    split; [exact P | exact Z0].
Defined.

Lemma checkUserInput_config (mktime : tm -> Z) (st st' : state) :
  checkUserInput mktime st = Some st' -> config_ok st -> config_ok st'.
Proof.
  intros H Ok. unfold checkUserInput in H.
  destruct (interfaceState st).
  - destruct (uart_rx st); injection H as <-; destruct Ok;
      constructor; assumption.
  - destruct (uart_rx st) as [|c rx]; [injection H as <-; exact Ok|].
    match type of H with
    | (if ?c then _ else _) = _ => destruct c
    end; injection H as <-; destruct Ok; constructor; assumption.
  - destruct (processUserInput mktime (cstr (inputBuffer st)) st)
      as [s|] eqn:P; [|discriminate].
    injection H as <-.
    destruct (processUserInput_config mktime _ _ _ P Ok).
    constructor; assumption.
Qed.

(** X28. From power-on the device stays well formed: through any
    sequence of main loop turns, match events between turns and bytes
    arriving, as long as no command is left waiting for input, melody and
    light effect stay in 1..3, the repeat count stays non-negative and
    the interval positive, and the command line index stays inside its
    100 character buffer. *)
Theorem device_stays_well_formed
  (mktime : tm -> Z) (hs : list happening) (st : state) :
  run mktime hs initial_state = Some st ->
  config_ok st /\ input_ok st.
Proof.
  assert (G : forall hs s s',
             run mktime hs s = Some s' ->
             config_ok s /\ input_ok s -> config_ok s' /\ input_ok s').
  { clear. induction hs as [|h hs IH]; intros s s' R [C I]; cbn [run] in R.
    - injection R as <-. split; assumption.
    - destruct h as [| |bytes].
      + destruct (checkUserInput mktime s) as [s1|] eqn:T; [|discriminate].
        apply (IH s1 s' R). split.
        * apply (checkUserInput_config mktime s s1 T C).
        * apply (checkUserInput_input_ok mktime s s1 T I).
      + apply (IH _ s' R).
        unfold match_event.
        match goal with |- context [RTC_IRQHandler ?x] =>
          destruct (RTC_IRQHandler_settings x)
            as (_ & _ & Hc & Hi & Hm & Hl & _ & Hb & Hx & _)
        end.
        st_simpl. destruct C, I.
        split; constructor; rewrite ?Hc, ?Hi, ?Hm, ?Hl, ?Hb, ?Hx; assumption.
      + apply (IH _ s' R). destruct C, I.
        split; constructor; assumption. }
  intros R. apply (G hs initial_state st R).
  split; constructor; unfold initial_state; st_simpl;
    try lia; reflexivity.
Qed.

Lemma device_stays_well_formed_witness :
  exists st,
    run mktime_utc
      ([Arrive (lines ["4"; "9"; "3"; "1"]%string)]
       ++ repeat Turn 8 ++ [Match] ++ repeat Turn 3)
      initial_state = Some st
    /\ alarmEnabled st = true
    /\ config_ok st /\ input_ok st.
Proof.
  eexists. split; [vm_compute; reflexivity|].
  split; [reflexivity|].
  apply (device_stays_well_formed mktime_utc
           ([Arrive (lines ["4"; "9"; "3"; "1"]%string)]
            ++ repeat Turn 8 ++ [Match] ++ repeat Turn 3)).
  vm_compute. reflexivity.
Defined.

(** * Repeat progress and set-alarm (C9)

    The frame lemmas above say what the commands, the polls and the
    playback leave alone; with them the places where the repeat counter
    is written can be listed. *)

Lemma getUserTimeInput_progress (st st1 : state) (r : option datetime) :
  getUserTimeInput st = Some (r, st1) ->
  currentRepeatCount st1 = currentRepeatCount st.
Proof.
  unfold getUserTimeInput, UARTReceiveStr. st_simpl.
  destruct (UARTReceiveStr_loop BUFFER_SIZE [] (uart_rx st))
    as [[[f b] rx]|]; [|discriminate].
  destruct (sscanf datetime_format (cstr b))
    as [|y [|m [|d [|h [|mi [|s [|]]]]]]];
    try destruct (fields_in_range _);
    intros E; injection E as <- <-; reflexivity.
Qed.

Lemma playback_progress (st : state) :
  currentRepeatCount (playback st) = currentRepeatCount st.
Proof.
  destruct (playback_frame st) as [_ (evs & pdor & m & l & pm & sl & E)].
  rewrite E. reflexivity.
Qed.

Lemma checkUserInput_progress (mktime : tm -> Z) (st st' : state) :
  checkUserInput mktime st = Some st' ->
  currentRepeatCount st' = currentRepeatCount st.
Proof.
  intros H. unfold checkUserInput in H.
  destruct (interfaceState st).
  - destruct (uart_rx st); injection H as <-; reflexivity.
  - destruct (uart_rx st) as [|c rx]; [injection H as <-; reflexivity|].
    match type of H with
    | (if ?c then _ else _) = _ => destruct c
    end; injection H as <-; reflexivity.
  - destruct (processUserInput mktime (cstr (inputBuffer st)) st)
      as [s|] eqn:P; [|discriminate].
    injection H as <-.
    destruct (processUserInput_runtime mktime _ _ _ P).
    st_simpl. assumption.
Qed.

(** C9 as amended. [setAlarm] leaves the repeat counter as it is, for any
    input; the counter goes back to its initial value only in the match
    handler, when the alarm is disabled or the repeats are used up.
    Nothing else resets it: the handler advances it by one in its third
    case, and no command, no poll of the serial line, no playback and no
    interrupt without the alarm flag changes it. *)
Theorem progress_reset_points (mktime : tm -> Z) (st st' : state) :
  setAlarm mktime st = Some st' ->
  currentRepeatCount st' = currentRepeatCount st
  /\ currentRepeatCount (handleAlarmRepeats (set_alarmEnabled false st)) = 1
  /\ (int32 (alarmRepeatCount st + 1) <= currentRepeatCount st ->
      currentRepeatCount (handleAlarmRepeats st) = 1)
  /\ (forall s : state,
        currentRepeatCount (handleAlarmRepeats s)
        = if alarmEnabled s
             && (currentRepeatCount s <? int32 (alarmRepeatCount s + 1))
          then int32 (currentRepeatCount s + 1)
          else 1)
  /\ (forall (input : list ascii) (s s' : state),
        processUserInput mktime input s = Some s' ->
        currentRepeatCount s' = currentRepeatCount s)
  /\ (forall s s' : state,
        checkUserInput mktime s = Some s' ->
        currentRepeatCount s' = currentRepeatCount s)
  /\ (forall s : state,
        currentRepeatCount (playback s) = currentRepeatCount s)
  /\ (forall s : state,
        currentRepeatCount (RTC_IRQHandler s)
        = if Z.land (RTC_SR s) RTC_SR_TAF_MASK =? 0
          then currentRepeatCount s
          else currentRepeatCount (handleAlarmRepeats s)).
Proof.
  intros E. split; [|split; [|split; [|split; [|split; [|split; [|split]]]]]].
  - unfold setAlarm in E.
    destruct (getUserTimeInput st) as [[r st1]|] eqn:G; [|discriminate].
    apply getUserTimeInput_progress in G.
    destruct r; st_simpl; injection E as <-; exact G.
  - reflexivity.
  - intros Ge. unfold handleAlarmRepeats.
    apply Z.ltb_ge in Ge. rewrite Ge.
    destruct (alarmEnabled st); reflexivity.
  - intros s. unfold handleAlarmRepeats.
    destruct (alarmEnabled s); [|reflexivity].
    destruct (currentRepeatCount s <? int32 (alarmRepeatCount s + 1));
      [|reflexivity].
    destruct (selectedMelodyID s) as [|[[?|?|]|[?|?|]|]|?];
      destruct (selectedLightEffectID s) as [|[[?|?|]|[?|?|]|]|?];
      reflexivity.
  - intros input s s' P.
    destruct (processUserInput_runtime mktime _ _ _ P). assumption.
  - intros s s'. apply checkUserInput_progress.
  - exact playback_progress.
  - intros s. unfold RTC_IRQHandler.
    destruct (Z.land (RTC_SR s) RTC_SR_TAF_MASK =? 0); [reflexivity|].
    cbn [negb]. cbv zeta.
    destruct (alarmEnabled (handleAlarmRepeats s)); st_simpl;
      [apply playback_progress | reflexivity].
Qed.

Lemma progress_reset_points_witness :
  exists st',
    setAlarm mktime_utc mid_run = Some st'
    /\ globalAlarmTime st' = 1893481200
    /\ currentRepeatCount st' = currentRepeatCount mid_run.
Proof.
  eexists. split; [vm_compute; reflexivity|].
  split; [reflexivity|].
  apply (progress_reset_points mktime_utc mid_run). vm_compute. reflexivity.
Defined.

(** C9 as stated fails: the counter stands at 3 before the new alarm time
    is set and at 3 after it, not at its initial value 1; the first match
    event of the new alarm then re-arms three intervals ahead. *)
Lemma setAlarm_keeps_progress :
  exists st',
    setAlarm mktime_utc mid_run = Some st'
    /\ currentRepeatCount initial_state = 1
    /\ currentRepeatCount mid_run = 3
    /\ currentRepeatCount st' = 3
    /\ RTC_TAR st' = 1893481200
    /\ RTC_TAR (match_event st') = 1893481200 + 3 * 5.
Proof. eexists. split; [vm_compute; reflexivity|]. repeat split. Qed.
